(** * ModePicture: cavity mode pictures and their Q-value

    A shallow embedding of [customxepr/experiment/mode_picture_dataset.py].

    Numbers.  Python floats and numpy arrays of floats are modelled by exact
    rationals ([Q]) and lists of rationals; the floating-point value [nan]
    that [np.mean] yields on an empty selection is modelled by [None] in
    [option Q].  A division whose divisor is zero raises
    [ZeroDivisionError], as Python's float division does (a numpy float
    would give [inf], for which there is no rational); the claims are
    settled on divisors other than zero.

    Exceptions.  Every function that can raise returns a [result]; the
    constructor of [exn] names the Python exception.

    External libraries.  The least-squares machinery of lmfit and the
    routines [np.argsort] and [np.loadtxt] of numpy are not part of the
    repository; they are the fields of the classes [Lmfit] and [Numpy].
    The text that [save] writes is modelled as a string: [np.savetxt]
    and the format [%.9E] are functions of the values, while [str] of a
    float is the field of the class [Formatting].

    Text.  A string is a sequence of characters with code points below
    256, and a file is the string of its decoded characters; how the
    characters are encoded as bytes is not modelled. *)

From Stdlib Require Import QArith Qround Lqa Ascii String.
From stdpp Require Import gmap strings list fin_maps sorting.

(** ** Exceptions *)

Inductive exn : Set :=
| ValueError
| IndexError
| KeyError
| TypeError
| ZeroDivisionError
| FitError          (* whatever lmfit or scipy raises *)
| StopIteration
| ValidationError   (* named by the specification only *)
| ParseError.       (* named by the specification only *)

Inductive result (A : Type) : Type :=
| Ok (a : A)
| Raise (e : exn).
Arguments Ok {A} a.
Arguments Raise {A} e.

#[global] Instance result_ret : MRet result := fun A a => Ok a.
#[global] Instance result_bind : MBind result := fun A B f r =>
  match r with
  | Ok a => f a
  | Raise e => Raise e
  end.

(** Sequencing: the first exception raised ends the computation. *)
Definition bind {A B} (r : result A) (f : A -> result B) : result B := r ≫= f.

Notation "'let!' x ':=' c 'in' k" := (bind c (fun x => k))
  (at level 10, x name, c at level 100, k at level 200, only parsing).
Notation "'let!' ' pat ':=' c 'in' k" :=
  (bind c (fun x => match x with pat => k end))
  (at level 10, pat pattern, c at level 100, k at level 200, only parsing).

Definition returns {A} (r : result A) : Prop := exists a, r = Ok a.

#[global] Instance exn_eq_dec : EqDecision exn.
Proof. solve_decision. Defined.

(** ** Python and numpy primitives *)

#[global] Instance Qlt_decision (a b : Q) : Decision (a < b)%Q.
Proof. destruct (Qlt_le_dec a b); [left | right]; [assumption | by apply Qle_not_lt]. Defined.

#[global] Instance Qle_decision (a b : Q) : Decision (a <= b)%Q.
Proof. destruct (Qlt_le_dec b a); [right | left]; [by apply Qlt_not_le | assumption]. Defined.

#[global] Instance Qeq_decision (a b : Q) : Decision (a == b)%Q := Qeq_dec a b.

(** [a / b] on Python floats. *)
Definition py_div (a b : Q) : result Q :=
  if decide (b == 0)%Q then Raise ZeroDivisionError else Ok (a / b)%Q.

(** [round(x, 1)]: the nearest multiple of one tenth, ties to the even one. *)
Definition py_round1 (x : Q) : Q :=
  let t := (x * 10)%Q in
  let f := Qfloor t in
  let r := (t - inject_Z f)%Q in
  let n := if decide (r < 1 # 2)%Q then f
           else if decide ((1 # 2) < r)%Q then (f + 1)%Z
           else if Z.even f then f else (f + 1)%Z in
  (n # 10)%Q.

(** The builtin [max(a, b)] of two arguments: [b] only when it is greater. *)
Definition py_max (a b : Q) : Q := if decide (a < b)%Q then b else a.

(** [math.pi], the double nearest to pi, as the exact rational it is. *)
Definition math_pi : Q := (884279719003555 # 281474976710656)%Q.

(** The float literal [1e-3]. *)
Definition milli : Q := (1 # 1000)%Q.

(** Normalisation of a slice bound against a sequence of length [n]. *)
Definition slice_bound (n : nat) (i : Z) : nat :=
  if decide (i < 0)%Z then Z.to_nat (Z.max (i + Z.of_nat n) 0)
  else Z.to_nat (Z.min i (Z.of_nat n)).

(** [l[start:stop]] with integer bounds of either sign. *)
Definition py_slice {A} (start stop : Z) (l : list A) : list A :=
  let s := slice_bound (length l) start in
  let e := slice_bound (length l) stop in
  take (e - s) (drop s l).

(** [l[i]] for a non-negative index. *)
Definition getitem {A} (l : list A) (i : nat) : result A :=
  match l !! i with
  | Some a => Ok a
  | None => Raise IndexError
  end.

(** [a[indices]]: indexing with an integer array. *)
Definition take_indices {A} (a : list A) (indices : list nat) : result (list A) :=
  mapM (M := result) (getitem a) indices.

(** [a[mask]]: indexing with a boolean array, which must be as long as [a]. *)
Definition bool_index {A} (a : list A) (mask : list bool) : result (list A) :=
  if decide (length a = length mask)
  then Ok ((filter (fun p => p.2 = true) (zip a mask)).*1)
  else Raise IndexError.

(** [np.arange(0, n)]: the integers [0 .. n-1] (none when [n <= 0]). *)
Definition arange (n : Z) : list Q :=
  (fun i => inject_Z (Z.of_nat i)) <$> seq 0 (Z.to_nat n).

(** [np.min] and [np.max]; both raise on an empty array. *)
Definition np_min (l : list Q) : result Q :=
  match l with
  | [] => Raise ValueError
  | v :: l' => Ok (foldl (fun m u => if decide (u < m)%Q then u else m) v l')
  end.

Definition np_max (l : list Q) : result Q :=
  match l with
  | [] => Raise ValueError
  | v :: l' => Ok (foldl (fun m u => if decide (m < u)%Q then u else m) v l')
  end.

(** [np.argmin]: the index of the first occurrence of the minimum. *)
Fixpoint argmin_from (best : nat) (m : Q) (i : nat) (l : list Q) : nat :=
  match l with
  | [] => best
  | u :: l' =>
      if decide (u < m)%Q then argmin_from i u (S i) l'
      else argmin_from best m (S i) l'
  end.

Definition np_argmin (l : list Q) : result nat :=
  match l with
  | [] => Raise ValueError
  | v :: l' => Ok (argmin_from 0 v 1 l')
  end.

Definition Qsum (l : list Q) : Q := foldr Qplus 0%Q l.

(** [np.mean]; [None] stands for the [nan] of an empty array. *)
Definition np_mean (l : list Q) : option Q :=
  match l with
  | [] => None
  | _ => Some (Qsum l / inject_Z (Z.of_nat (length l)))%Q
  end.

(** [np.mean([a, b])] of two floats, either of which may be [nan]. *)
Definition np_mean2 (a b : option Q) : option Q :=
  match a, b with
  | Some u, Some v => Some ((u + v) / 2)%Q
  | _, _ => None
  end.

(** [sum(mask)] for the boolean array [mask = (P x for x in l)]. *)
Definition count_if (P : Q -> Prop) `{forall x, Decision (P x)} (l : list Q) : nat :=
  length (filter P l).

(** [v < t] where [t] may be [nan]: every comparison with [nan] is False. *)
Definition lt_nan (v : Q) (t : option Q) : bool :=
  match t with
  | Some u => bool_decide (v < u)%Q
  | None => false
  end.

(** ** The model function *)

(** [lorentz_peak]: the Lorentzian with area [a], full width at half
    maximum [w] and center [x0], at the point [x]. *)
Definition lorentz_peak (x x0 w a : Q) : result Q :=
  let numerator := (2 / math_pi * w)%Q in
  let denominator := (4 * (x - x0) ^ 2 + w ^ 2)%Q in
  py_div (a * numerator) denominator.

(** ** The external fitting library *)

(** An lmfit parameter after a fit: its value and, when the covariance
    could be estimated, its standard error ([None] is Python's [None]). *)
Record FitParameter : Set := mkFitParameter {
  value : Q;
  stderr : option Q;
}.

(** The first-guess parameters handed to the fit: the polynomial
    coefficients from [pmod.guess] and the entries of [pars.add_many]. *)
Record Parameters : Set := mkParameters {
  guess_c : list Q;
  guess_x0 : Q;
  guess_w : Q;
  guess_a : Q;
}.

(** The lmfit [ModelResult], as far as the program reads it. *)
Record ModelResult : Set := mkModelResult {
  params_x0 : FitParameter;
  params_w : FitParameter;
  params_a : FitParameter;
  params_c : list FitParameter;
}.

(** [fit_result.best_values[...]] are the values of [fit_result.params]. *)
Definition best_values_x0 (r : ModelResult) : Q := value (params_x0 r).
Definition best_values_w (r : ModelResult) : Q := value (params_w r).

(** Both calls return [None] when the library raises. *)
Class Lmfit := {
  (** [PolynomialModel(degree=7).guess(y_bg, x=x_bg)] *)
  guess : list Q -> list Q -> option (list Q);
  (** [(pmod - lmodel).fit(y_data, pars, x=x_data)] *)
  fit : list Q -> Parameters -> list Q -> option ModelResult;
}.

Definition lmfit_call {A} (r : option A) : result A :=
  match r with
  | Some a => Ok a
  | None => Raise FitError
  end.

(** What [np.loadtxt] returns: the array is squeezed, so a table of a
    single row or a single column comes back one-dimensional. *)
Inductive ndarray : Set :=
| Array0 (v : Q)
| Array1 (l : list Q)
| Array2 (rows : list (list Q)).

Class Numpy := {
  (** [np.argsort]: a permutation of the indices that sorts its argument;
      the order among equal values is left open. *)
  argsort : list Q -> list nat;
  argsort_perm : forall l, argsort l ≡ₚ seq 0 (length l);
  argsort_sorted : forall l,
    StronglySorted Qle ((fun i => default 0%Q (l !! i)) <$> argsort l);
  (** [np.loadtxt], applied to the text of the file; [None] when the
      text is not a table of numbers. *)
  loadtxt : string -> option ndarray;
}.

Definition np_loadtxt `{Numpy} (file : string) : result ndarray :=
  match loadtxt file with
  | Some m => Ok m
  | None => Raise ValueError
  end.

(** [m[:, j]] *)
Definition column (m : ndarray) (j : nat) : result (list Q) :=
  match m with
  | Array2 rows => mapM (M := result) (fun r => getitem r j) rows
  | _ => Raise IndexError
  end.

(** ** Text files *)

Definition newline : ascii := "010"%char.
Definition tab : ascii := "009"%char.
Definition carriage_return : ascii := "013"%char.

Definition is_digit (c : ascii) : bool :=
  let n := nat_of_ascii c in (48 <=? n)%nat && (n <=? 57)%nat.

(** The class [\w] of the regular expression.  The pattern is a [str],
    so that the class is the one of Unicode: the underscore and the
    characters that are alphanumeric, which below code point 256 are the
    ASCII letters and digits, the two ordinal indicators, the micro
    sign, the superscripts one, two and three, the three vulgar
    fractions, and the accented letters (the multiplication and the
    division sign are not among them). *)
Definition is_word (c : ascii) : bool :=
  let n := nat_of_ascii c in
  is_digit c
  || ((65 <=? n)%nat && (n <=? 90)%nat)
  || ((97 <=? n)%nat && (n <=? 122)%nat)
  || (n =? 95)%nat
  || (n =? 170)%nat
  || ((178 <=? n)%nat && (n <=? 179)%nat)
  || (n =? 181)%nat
  || ((185 <=? n)%nat && (n <=? 186)%nat)
  || ((188 <=? n)%nat && (n <=? 190)%nat)
  || ((192 <=? n)%nat && (n <=? 214)%nat)
  || ((216 <=? n)%nat && (n <=? 246)%nat)
  || ((248 <=? n)%nat && (n <=? 255)%nat).

(** The longest prefix of [s] whose characters satisfy [p], and the rest. *)
Fixpoint span (p : ascii -> bool) (s : string) : string * string :=
  match s with
  | String c s' =>
      if p c then let '(u, v) := span p s' in (String c u, v)
      else (EmptyString, s)
  | EmptyString => (EmptyString, EmptyString)
  end.

Fixpoint string_forallb (p : ascii -> bool) (s : string) : bool :=
  match s with
  | String c s' => p c && string_forallb p s'
  | EmptyString => true
  end.

(** [filter(p, s)], joined back into a string. *)
Fixpoint string_filter (p : ascii -> bool) (s : string) : string :=
  match s with
  | String c s' => if p c then String c (string_filter p s') else string_filter p s'
  | EmptyString => EmptyString
  end.

(** [c in s] for a character [c]. *)
Fixpoint in_string (c : ascii) (s : string) : bool :=
  match s with
  | String c' s' => Ascii.eqb c c' || in_string c s'
  | EmptyString => false
  end.

(** [f.readlines()] for a file opened with [open(path, "r")]: the lines
    of the text, each with its newline.  The file is read with universal
    newlines: a carriage return, with the newline that follows it if
    there is one, ends a line as a newline does, and is read as a
    newline. *)
Fixpoint readlines (s : string) : list string :=
  match s with
  | EmptyString => []
  | String c s' =>
      if Ascii.eqb c newline then String newline EmptyString :: readlines s'
      else if Ascii.eqb c carriage_return then
        String newline EmptyString
          :: match s' with
             | String c' s'' =>
                 if Ascii.eqb c' newline then readlines s'' else readlines s'
             | EmptyString => []
             end
      else match readlines s' with
           | [] => [String c EmptyString]
           | l :: ls => String c l :: ls
           end
  end.

(** [line.startswith] of the hash sign. *)
Definition startswith_hash (line : string) : bool :=
  match line with
  | String "#" _ => true
  | _ => false
  end.

(** The rest of [s] after the prefix [p], if [s] starts with [p]. *)
Fixpoint strip_prefix (p s : string) : option string :=
  match p, s with
  | EmptyString, _ => Some s
  | String a p', String b s' => if Ascii.eqb a b then strip_prefix p' s' else None
  | String _ _, EmptyString => None
  end.

(** [re.match(pattern, line)] for the pattern of [load]: a hash sign, a
    space, the group [key] (any number of word characters), a colon, a
    tab, the group [value] (any number of characters other than a
    newline).  Returns the two groups if the line matches.  The greedy
    group [key] takes the longest run of word characters; giving some of
    them back cannot help, since the colon is not a word character.  The
    group [value] runs up to the end of the line, the newline excluded. *)
Definition match_metadata (line : string) : option (string * string) :=
  rest ← strip_prefix "# " line;
  let '(key, rest) := span is_word rest in
  rest ← strip_prefix (String ":" (String tab EmptyString)) rest;
  Some (key, (span (fun c => negb (Ascii.eqb c newline)) rest).1).

(** The value of a string of decimal digits. *)
Definition digits_value (s : string) : Z :=
  foldl (fun acc c => (10 * acc + Z.of_nat (nat_of_ascii c - 48))%Z) 0%Z
        (list_ascii_of_string s).

(** [float(s)] for a string [s] of digits and dots, which is all that the
    program passes to it: a decimal numeral with at least one digit and
    at most one dot; anything else raises [ValueError]. *)
Definition py_float (s : string) : result Q :=
  let '(int_part, rest) := span is_digit s in
  let frac_part := match rest with
                   | String "." r => r
                   | _ => rest
                   end in
  if string_forallb is_digit frac_part
     && negb (String.length int_part + String.length frac_part =? 0)%nat
  then Ok (digits_value (int_part +:+ frac_part)
           # Z.to_pos (10 ^ Z.of_nat (String.length frac_part)))%Q
  else Raise ValueError.

(** ** Writing numbers and text *)

(** The character of the decimal digit [d mod 10]. *)
Definition digit_char (d : Z) : ascii :=
  ascii_of_nat (48 + Z.to_nat (d mod 10)).

(** The last [n] decimal digits of [m], most significant first. *)
Fixpoint digits (n : nat) (m : Z) : string :=
  match n with
  | 0 => EmptyString
  | S n' => digits n' (m / 10) +:+ String (digit_char m) EmptyString
  end.

(** The number of decimal digits of [m >= 0] (one for zero), found in at
    most [fuel] divisions by ten; the binary logarithm of [m] is fuel
    enough. *)
Fixpoint count_digits (fuel : nat) (m : Z) : nat :=
  match fuel with
  | 0 => 1
  | S fuel' => if (m <? 10)%Z then 1 else S (count_digits fuel' (m / 10))
  end.

(** The integer nearest to [x], ties to the even one. *)
Definition round_half_even (x : Q) : Z :=
  let f := Qfloor x in
  let r := (x - inject_Z f)%Q in
  if decide (r < 1 # 2)%Q then f
  else if decide ((1 # 2) < r)%Q then (f + 1)%Z
  else if Z.even f then f else (f + 1)%Z.

(** [10 ^ e] for an exponent of either sign. *)
Definition pow10 (e : Z) : Q :=
  if decide (0 <= e)%Z then inject_Z (10 ^ e)
  else (1 # Z.to_pos (10 ^ (- e)))%Q.

(** The decimal exponent of [a > 0], the [e] with
    [10 ^ e <= a < 10 ^ (e + 1)]: one of the two candidates that the
    digit counts of numerator and denominator leave. *)
Definition decimal_exponent (a : Q) : Z :=
  let n := Qnum a in
  let d := Zpos (Qden a) in
  let e := (Z.of_nat (count_digits (Z.to_nat (Z.log2 n)) n)
            - Z.of_nat (count_digits (Z.to_nat (Z.log2 d)) d))%Z in
  if decide (pow10 e <= a)%Q then e else (e - 1)%Z.

(** The format [%.9E] applied to [x]: the sign, one digit, the point,
    nine digits, the letter E, the sign of the exponent and its digits,
    at least two.  The mantissa is the value rounded to ten significant
    digits, ties to even. *)
Definition format_9E (x : Q) : string :=
  let a := (if decide (x < 0)%Q then - x else x)%Q in
  let '(m, e) :=
    if decide (a == 0)%Q then (0%Z, 0%Z)
    else
      let e := decimal_exponent a in
      let m := round_half_even (a * pow10 (9 - e)) in
      if (m =? 10 ^ 10)%Z then ((10 ^ 9)%Z, (e + 1)%Z) else (m, e) in
  let ae := Z.abs e in
  (if decide (x < 0)%Q then "-" else EmptyString)
  +:+ digits 1 (m / 10 ^ 9) +:+ "." +:+ digits 9 m
  +:+ "E" +:+ (if decide (e < 0)%Z then "-" else "+")
  +:+ digits (Nat.max 2 (count_digits (Z.to_nat (Z.log2 ae)) ae)) ae.

(** [sep.join(l)] *)
Fixpoint join (sep : string) (l : list string) : string :=
  match l with
  | [] => EmptyString
  | [s] => s
  | s :: l' => s +:+ sep +:+ join sep l'
  end.

(** [s.replace(newline, new)] *)
Fixpoint replace_newline (new : string) (s : string) : string :=
  match s with
  | EmptyString => EmptyString
  | String c s' =>
      if Ascii.eqb c newline then new +:+ replace_newline new s'
      else String c (replace_newline new s')
  end.

(** [np.savetxt(file, X, fmt, delimiter=tab, header=header)] with the
    format [%.9E] for a two-dimensional [X], as the text written: the
    header, every line of it after the comment prefix, then one line per
    row. *)
Definition np_savetxt (X : list (list Q)) (header : string) : string :=
  let comments := "# " in
  let line := String newline EmptyString in
  let head := match header with
              | EmptyString => EmptyString
              | _ => comments +:+ replace_newline (line +:+ comments) header
                     +:+ line
              end in
  let row_text row := join (String tab EmptyString) (format_9E <$> row) +:+ line in
  head +:+ foldr (fun row rest => row_text row +:+ rest) EmptyString X.

(** ** The class ModePicture *)

(** The data handed to the constructor: the dict of zoom factors and
    curves, in insertion order (the keys of a dict are distinct). *)
Abbreviation dataset := (list (Z * list Q)).

(** A value of the metadata dict: the constructor stores strings and
    floats, [load] stores strings.  [MGHz freq] is the string that the
    f-string of [__init__] builds: [freq] printed as a float, a space and
    the unit GHz. *)
Inductive meta_value : Set :=
| MStr (s : string)
| MGHz (freq : Q)
| MFloat (q : Q).

(** The attributes of a constructed [ModePicture]; [mode_pic_data] is set
    only when the object was built from a dataset. *)
Record ModePicture : Set := mkModePicture {
  metadata : gmap string meta_value;
  mode_pic_data : option (list (Z * list Q));
  freq0 : Q;
  x_data_mhz : list Q;
  x_data_points : list Q;
  y_data : list Q;
  qvalue : Q;
  fit_result : ModelResult;
  qvalue_stderr : Q;
}.

(** The first argument of the constructor. *)
Inductive constructor_input : Set :=
| InputPath (file : string)     (* a [str]: the path, here the text of the file *)
| InputData (data : list (Z * list Q))   (* a [dict] *)
| InputOther.

(** The clock: what [time.strftime] returns for the format of [__init__]. *)
Class Runtime := {
  strftime : string;
}.

(** Python's conversion of a float to a string, [str(x)], as the
    f-strings use it: the shortest decimal that reads back as the same
    double.  It depends on the binary representation of the float, of
    which the rational model keeps nothing, and is left open. *)
Class Formatting := {
  float_str : Q -> string;
}.

(** [str(v)] for a value of the metadata dict. *)
Definition str_value `{Formatting} (v : meta_value) : string :=
  match v with
  | MStr s => s
  | MGHz freq => float_str freq +:+ " GHz"
  | MFloat q => float_str q
  end.

Section ModePicture.
Context `{Lmfit} `{Numpy} `{Runtime}.

Definition _points_to_mhz (n_points : Z) (zf : Z) (x0 : Q) : result (list Q) :=
  let x_axis_points := arange n_points in
  let! s := py_div milli (inject_Z (2 * zf)) in
  Ok ((fun p => s * (p - x0))%Q <$> x_axis_points).

Definition _get_fit_starting_points (x_data y_data : list Q)
  : result (Q * Q * Q) :=
  (* find center dip *)
  let! i := np_argmin y_data in
  let! peak_center := getitem x_data i in
  (* find baseline height *)
  let n_points := length x_data in
  let k := Z.of_nat (n_points / 4) in     (* int(n_points * 0.25) *)
  let bs1 := np_mean (py_slice 0 k y_data) in
  let bs2 := np_mean (py_slice (- k) (-1) y_data) in
  let baseline := np_mean2 bs1 bs2 in
  (* find peak area *)
  let! ymin := np_min y_data in
  let peak_height := (fun b => b - ymin)%Q <$> baseline in
  let threshold := (fun h => h / 2 + ymin)%Q <$> peak_height in
  let peak_index := (fun v => lt_nan v threshold) <$> y_data in
  let! sel := bool_index x_data peak_index in
  let! hi := np_max sel in
  let! lo := np_min sel in
  let fwhm := py_max (hi - lo) 1 in
  match peak_height with
  | Some h => Ok (peak_center, fwhm, (h * fwhm * math_pi / 2)%Q)
  | None => Raise ValueError   (* not reached: [sel] was empty *)
  end.

(** The samples that seed the polynomial background. *)
Definition background {A} (x_data : list Q) (peak_center fwhm : Q)
    (data : list A) : list A :=
  let idx1 := count_if (fun x => x < peak_center - 3 * fwhm)%Q x_data in
  let idx2 := count_if (fun x => peak_center + 3 * fwhm < x)%Q x_data in
  py_slice 0 (Z.of_nat idx1) data
    ++ py_slice (- Z.of_nat idx2) (-1) data.

Definition fit_qvalue (freq0 : Q) (x_data y_data : list Q) (zoom_factor : Z)
  : result (Q * ModelResult) :=
  (* get first guess parameters for Lorentzian fit *)
  let! '(peak_center, fwhm, peak_area) :=
    _get_fit_starting_points x_data y_data in
  (* isolate back ground area from resonance dip *)
  let x_bg := background x_data peak_center fwhm x_data in
  let y_bg := background x_data peak_center fwhm y_data in
  (* get first guess parameters for background *)
  let! c := lmfit_call (guess y_bg x_bg) in
  let pars := mkParameters c peak_center fwhm peak_area in
  (* perform full fit *)
  let! fit_result := lmfit_call (fit y_data pars x_data) in
  (* calculate Q-value from resonance width *)
  let! delta_freq := py_div (best_values_w fit_result * milli)
                      (inject_Z (2 * zoom_factor)) in
  let! q := py_div freq0 delta_freq in
  Ok (py_round1 q, fit_result).

Definition get_qvalue_stderr (freq0 : Q) (fit_result : ModelResult) : result Q :=
  let delta_freq := (value (params_w fit_result) * milli / 2)%Q in
  match stderr (params_w fit_result) with
  | None => Raise TypeError            (* None * 1e-3 *)
  | Some e =>
      let delta_freq_stderr := (e * milli / 2)%Q in
      let! q := py_div freq0 (delta_freq ^ 2) in
      Ok (py_round1 (q * delta_freq_stderr))
  end.

(** The loop of [combine_data]: one rescaled axis per zoom factor. *)
Definition rescale (freq0 : Q) (n_points : Z) (entry : Z * list Q)
  : result (list Q) :=
  let '(zf, curve) := entry in
  let! '(q_value, fit_rslt) := fit_qvalue freq0 (arange n_points) curve zf in
  _points_to_mhz n_points zf (best_values_x0 fit_rslt).

Definition combine_data (freq0 : Q) (mode_pic_data : dataset)
  : result (list Q * list Q * list Q) :=
  match mode_pic_data with
  | [] => Raise StopIteration
  | (_, first) :: _ =>
      let n_points := Z.of_nat (length first) in
      (* rescale x-axes according to zoom factor *)
      let! x_axis_mhz := mapM (M := result) (rescale freq0 n_points) mode_pic_data in
      (* combine data from all zoom factors *)
      let x_axis_mhz_comb := concat x_axis_mhz in
      let mode_pic_comb := concat (mode_pic_data.*2) in
      (* sort arrays in order of ascending frequency *)
      let indices := argsort x_axis_mhz_comb in
      let! x_axis_mhz_comb := take_indices x_axis_mhz_comb indices in
      let! mode_pic_comb := take_indices mode_pic_comb indices in
      let x_axis_points_comb := (fun v => 2 / milli * v)%Q <$> x_axis_mhz_comb in
      Ok (x_axis_mhz_comb, x_axis_points_comb, mode_pic_comb)
  end.

(** [self.metadata.clear()] *)
Definition dict_clear (m : gmap string meta_value) : gmap string meta_value := ∅.

(** The loop of [load] over the metadata lines of the header. *)
Definition read_metadata (m : gmap string meta_value) (lines : list string)
  : gmap string meta_value :=
  foldl (fun m line =>
           match match_metadata line with
           | Some (key, v) => <[key := MStr v]> m
           | None => m
           end) m lines.

(** [sum(line.startswith(...) for line in lines)] *)
Definition header_length (lines : list string) : nat :=
  length (filter (fun l => startswith_hash l = true) lines).

(** [lines[:metadata_length]] *)
Definition metadata_lines (lines : list string) : list string :=
  (* last line of header are column titles *)
  let metadata_length := (Z.of_nat (header_length lines) - 1)%Z in
  py_slice 0 metadata_length lines.

Definition load (self_metadata : gmap string meta_value) (file : string)
  : result ModePicture :=
  let! data_matrix := np_loadtxt file in
  let! x_data_mhz := column data_matrix 0 in
  let! y_data := column data_matrix 1 in
  let x_data_points := (fun v => 2 / milli * v)%Q <$> x_data_mhz in
  let lines := readlines file in
  let metadata := dict_clear self_metadata in
  let metadata := read_metadata metadata (metadata_lines lines) in
  let! freq_field := match metadata !! "Frequency" with
                     | Some (MStr s) => Ok s
                     | Some (MGHz _) | Some (MFloat _) =>
                         Raise TypeError   (* not reached: [load] stores strings *)
                     | None => Raise KeyError
                     end in
  let freq_str :=
    string_filter (fun c => in_string c "0123456789.") freq_field in
  let! freq0 := py_float freq_str in
  let! '(qvalue, fit_result) := fit_qvalue freq0 x_data_points y_data 1 in
  let! qvalue_stderr := get_qvalue_stderr freq0 fit_result in
  Ok (mkModePicture metadata None freq0 x_data_mhz x_data_points y_data
                    qvalue fit_result qvalue_stderr).

(** [ModePicture(input_path_or_data, freq, metadata)]; [None] for the
    third argument is Python's [None]. *)
Definition __init__ (input_path_or_data : constructor_input) (freq : Q)
    (metadata : option (gmap string meta_value)) : result ModePicture :=
  let metadata := match metadata with
                  | Some m => m        (* an empty dict is replaced by an empty dict *)
                  | None => ∅
                  end in
  match input_path_or_data with
  | InputPath file => load metadata file
  | InputData mode_pic_data =>
      let freq0 := freq in
      let! '(x_data_mhz, x_data_points, y_data) :=
        combine_data freq0 mode_pic_data in
      let! '(qvalue, fit_result) := fit_qvalue freq0 x_data_points y_data 1 in
      let! qvalue_stderr := get_qvalue_stderr freq0 fit_result in
      let metadata := <["Time" := MStr strftime]> metadata in
      let metadata := <["Frequency" := MGHz freq]> metadata in
      let metadata := <["QValue" := MFloat qvalue]> metadata in
      let metadata := <["QValueErr" := MFloat qvalue_stderr]> metadata in
      Ok (mkModePicture metadata (Some mode_pic_data) freq0
                        x_data_mhz x_data_points y_data
                        qvalue fit_result qvalue_stderr)
  | InputOther => Raise TypeError
  end.

(** [self.save(filepath)], as the text written to the file.
    [metadata_items] is [self.metadata.items()], the entries of the dict
    in its order. *)
Definition save {fmt : Formatting}
    (metadata_items : list (string * meta_value))
    (x_data_mhz y_data : list Q) : result string :=
  (* create header and title for file *)
  let metadata :=
    (fun kv => kv.1 +:+ String ":" (String tab (str_value kv.2)))
      <$> metadata_items in
  let column_titles := ["freq [MHz]"; "MW abs. [a.u.]"] in
  let column_titles := join (String tab EmptyString) column_titles in
  let header := join (String newline EmptyString) (metadata ++ [column_titles]) in
  (* np.concatenate raises on two rows of different lengths *)
  let! data_matrix_T :=
    if decide (length x_data_mhz = length y_data)
    then Ok (zip_with (fun a b => [a; b]) x_data_mhz y_data)
    else Raise ValueError in
  Ok (np_savetxt data_matrix_T header).

Definition __len__ (self : ModePicture) : nat := length (y_data self).

End ModePicture.

(** ** Instances on which the program can be run

    A stable insertion sort for [np.argsort], a reader of plain decimal
    tables for [np.loadtxt], a fit that stops at its first guess, and a
    stopped clock. *)

Module Concrete.

Definition key (l : list Q) (i : nat) : Q := default 0%Q (l !! i).

Fixpoint insert_index (l : list Q) (i : nat) (sorted : list nat) : list nat :=
  match sorted with
  | [] => [i]
  | j :: js =>
      if decide (key l i < key l j)%Q then i :: sorted
      else j :: insert_index l i js
  end.

Definition insertion_argsort (l : list Q) : list nat :=
  foldl (fun acc i => insert_index l i acc) [] (seq 0 (length l)).

Definition is_space (c : ascii) : bool :=
  Ascii.eqb c " " || Ascii.eqb c tab || Ascii.eqb c newline.

(** The text before the first hash sign. *)
Definition strip_comment (line : string) : string :=
  fst (span (fun c => negb (Ascii.eqb c "#")) line).

(** [line.split()]; [cur] is the token being read, reversed. *)
Fixpoint split_from (cur : list ascii) (s : string) : list string :=
  let flush := match cur with
               | [] => []
               | _ => [string_of_list_ascii (reverse cur)]
               end in
  match s with
  | EmptyString => flush
  | String c s' =>
      if is_space c then flush ++ split_from [] s'
      else split_from (c :: cur) s'
  end.

Definition split_sign (s : string) : bool * string :=
  match s with
  | String "-" r => (true, r)
  | String "+" r => (false, r)
  | _ => (false, s)
  end.

(** A numeral [digits . digits E sign digits] and its value. *)
Definition parse_number (tok : string) : option Q :=
  let '(neg, s) := split_sign tok in
  let '(int_part, s) := span is_digit s in
  let '(frac_part, s) := match s with
                         | String "." r => span is_digit r
                         | _ => (EmptyString, s)
                         end in
  let exponent := match s with
                  | EmptyString => Some 0%Z
                  | String c r =>
                      if Ascii.eqb c "E" || Ascii.eqb c "e" then
                        let '(eneg, ds) := split_sign r in
                        if string_forallb is_digit ds
                           && negb (String.length ds =? 0)%nat
                        then Some (if eneg then - digits_value ds
                                   else digits_value ds)%Z
                        else None
                      else None
                  end in
  if (String.length int_part + String.length frac_part =? 0)%nat then None
  else
    e ← exponent;
    let m := digits_value (int_part +:+ frac_part) in
    let m := (if neg then - m else m)%Z in
    let e := (e - Z.of_nat (String.length frac_part))%Z in
    Some (if decide (0 <= e)%Z then inject_Z (m * 10 ^ e)
          else (m # Z.to_pos (10 ^ (- e))))%Q.

Definition parse_row (line : string) : option (list Q) :=
  mapM parse_number (split_from [] (strip_comment line)).

(** The rows of numbers of the text, squeezed as numpy does. *)
Definition text_loadtxt (file : string) : option ndarray :=
  rows ← mapM parse_row (readlines file);
  let rows := filter (fun r => r <> []) rows in
  match rows with
  | [] => Some (Array1 [])
  | r :: _ =>
      if forallb (fun r' => length r' =? length r)%nat rows then
        match rows, r with
        | [_], [v] => Some (Array0 v)
        | [_], _ => Some (Array1 r)
        | _, [_] => Some (Array1 (concat rows))
        | _, _ => Some (Array2 rows)
        end
      else None
  end.

(** A fit that returns its first guess, every parameter with the
    standard error [err]. *)
Definition first_guess (err : option Q) : Lmfit := {|
  guess _ _ := Some (replicate 8 0%Q);
  fit _ pars _ := Some {|
    params_x0 := mkFitParameter (guess_x0 pars) err;
    params_w := mkFitParameter (guess_w pars) err;
    params_a := mkFitParameter (guess_a pars) err;
    params_c := (fun v => mkFitParameter v err) <$> guess_c pars;
  |};
|}.

(** A fit that always raises. *)
Definition failing_fit : Lmfit := {|
  guess _ _ := None;
  fit _ _ _ := None;
|}.

Definition stopped_clock : Runtime := {| strftime := "12:00, 01/01/2020" |}.

(** Text files, line by line. *)
Definition unlines (lines : list string) : string :=
  foldr (fun l acc => l +:+ String newline acc) EmptyString lines.

Definition tabbed (a b : string) : string := a +:+ String tab b.

(** Eight rows of a mode picture around 0 MHz with the dip at 0. *)
Definition table : list string :=
  [ tabbed "-2.000000000E-03" "1.000000000E+01";
    tabbed "-1.500000000E-03" "1.000000000E+01";
    tabbed "-1.000000000E-03" "1.000000000E+01";
    tabbed "-5.000000000E-04" "1.000000000E+01";
    tabbed "0.000000000E+00" "0.000000000E+00";
    tabbed "5.000000000E-04" "1.000000000E+01";
    tabbed "1.000000000E-03" "1.000000000E+01";
    tabbed "1.500000000E-03" "1.000000000E+01" ].

Definition column_titles : string := tabbed "# freq [MHz]" "MW abs. [a.u.]".

(** A file as [save] writes it. *)
Definition saved_file : string :=
  unlines ([ tabbed "# Time:" "12:00, 01/01/2020";
             tabbed "# Frequency:" "9.385 GHz";
             tabbed "# QValue:" "18770.0";
             column_titles ] ++ table).

(** The same without the line of column titles. *)
Definition file_without_titles : string :=
  unlines ([ tabbed "# Frequency:" "9.385 GHz";
             tabbed "# QValue:" "18770.0" ] ++ table).

Definition file_without_frequency : string :=
  unlines ([ tabbed "# Time:" "12:00, 01/01/2020"; column_titles ] ++ table).

Definition file_with_unknown_frequency : string :=
  unlines ([ tabbed "# Frequency:" "unknown"; column_titles ] ++ table).

(** A printer of plain decimals for [str(x)]: the integer part, the
    point, and the decimals up to the twelfth, without trailing zeros
    but for the first. *)
Fixpoint strip_zeros (fuel : nat) (f : Z) (k : nat) : Z * nat :=
  match fuel with
  | 0 => (f, k)
  | S fuel' =>
      if ((f mod 10 =? 0)%Z && (1 <? k)%nat)%bool
      then strip_zeros fuel' (f / 10)%Z (k - 1)
      else (f, k)
  end.

Definition decimal_str (x : Q) : string :=
  let a := (if decide (x < 0)%Q then - x else x)%Q in
  let i := Qfloor a in
  let f := Qfloor ((a - inject_Z i) * inject_Z (10 ^ 12)) in
  let '(f, k) := strip_zeros 12 f 12 in
  (if decide (x < 0)%Q then "-" else EmptyString)
  +:+ digits (count_digits (Z.to_nat (Z.log2 i)) i) i +:+ "." +:+ digits k f.

Definition plain_decimals : Formatting := {| float_str := decimal_str |}.

(** The frequencies and the absorption of [table]. *)
Definition table_x : list Q :=
  [-2 # 1000; -15 # 10000; -1 # 1000; -5 # 10000;
   0; 5 # 10000; 1 # 1000; 15 # 10000]%Q.

Definition table_y : list Q := [10; 10; 10; 10; 0; 10; 10; 10]%Q.

(** The entries of a metadata dict, one of them with a key of two words. *)
Definition items : list (string * meta_value) :=
  [ ("Time", MStr "12:00, 01/01/2020");
    ("Frequency", MGHz (9385 # 1000));
    ("QValue", MFloat 18770);
    ("Sample name", MStr "film 3") ].

(** A curve of sixteen samples with its dip at point 8. *)
Definition curve : list Q :=
  inject_Z <$> [10; 10; 10; 10; 10; 10; 10; 10; 0; 10; 10; 10; 10; 10; 10; 10]%Z.

(** The frequencies of its sixteen points, in MHz, around the dip. *)
Definition axis16 : list Q :=
  (fun i => (inject_Z (Z.of_nat i) - 8) * (5 # 10000))%Q <$> seq 0 16.

(** The sixteen rows of a file for this curve. *)
Definition table16 : list string :=
  zip_with (fun f a => tabbed (format_9E f) (format_9E a)) axis16 curve.

(** A file as [save] writes it, with sixteen rows. *)
Definition saved_file16 : string :=
  unlines ([ tabbed "# Time:" "12:00, 01/01/2020";
             tabbed "# Frequency:" "9.385 GHz";
             tabbed "# QValue:" "18770.0";
             column_titles ] ++ table16).

(** The same without the line of column titles. *)
Definition file16_without_titles : string :=
  unlines ([ tabbed "# Frequency:" "9.385 GHz";
             tabbed "# QValue:" "18770.0" ] ++ table16).

(** A flat curve of sixteen samples. *)
Definition flat : list Q := replicate 16 10%Q.

End Concrete.

(** ** The wording of the specification, for comparison

    These two definitions follow the specification, not the source. *)

(** The background as the specification describes it: the samples whose
    x-value lies outside [[peak_center - 3 fwhm, peak_center + 3 fwhm]]. *)
Definition spec_background {A} (x_data : list Q) (peak_center fwhm : Q)
    (data : list A) : list A :=
  (filter (fun p => p.1 < peak_center - 3 * fwhm
                    \/ peak_center + 3 * fwhm < p.1)%Q
          (zip x_data data)).*2.

(** The starting points as the specification describes them: the
    baseline averages the mean of the first quartile and the mean of the
    last quartile of the samples (by index). *)
Definition spec_starting_points (x_data y_data : list Q) : result (Q * Q * Q) :=
  let! i := np_argmin y_data in
  let! peak_center := getitem x_data i in
  let k := length x_data / 4 in
  let first_quartile := take k y_data in
  let last_quartile := drop (length y_data - k) y_data in
  let baseline := np_mean2 (np_mean first_quartile) (np_mean last_quartile) in
  let! ymin := np_min y_data in
  let peak_height := (fun b => b - ymin)%Q <$> baseline in
  let threshold := (fun h => h / 2 + ymin)%Q <$> peak_height in
  let! sel := bool_index x_data ((fun v => lt_nan v threshold) <$> y_data) in
  let! hi := np_max sel in
  let! lo := np_min sel in
  let fwhm := py_max (hi - lo) 1 in
  match peak_height with
  | Some h => Ok (peak_center, fwhm, (h * fwhm * math_pi / 2)%Q)
  | None => Raise ValueError
  end.

(** ** Predicates used in the statements *)

(** The exceptions of Python itself and of the libraries. *)
Definition python_exn (e : exn) : Prop :=
  e <> ValidationError /\ e <> ParseError.

Definition raises_python {A} (r : result A) : Prop :=
  forall e, r = Raise e -> python_exn e.

(** The lines that the pattern of [load] matches, with the two groups:
    [key] is made of word characters, [value] has no newline and runs up
    to the end of the line. *)
Definition matches_pattern (line key value : string) : Prop :=
  exists rest,
    line = "# " +:+ key +:+ String ":" (String tab (value +:+ rest))
    /\ string_forallb is_word key = true
    /\ string_forallb (fun c => negb (Ascii.eqb c newline)) value = true
    /\ (rest = EmptyString \/ exists r, rest = String newline r).

(** [line] is a metadata line for [key]. *)
Definition sets_key (key line : string) : Prop :=
  exists s, matches_pattern line key s.

(** [s] is the value of the last line of [lines] that matches with [key]. *)
Definition last_entry (lines : list string) (key s : string) : Prop :=
  exists l1 line l2,
    lines = l1 ++ line :: l2
    /\ matches_pattern line key s
    /\ Forall (fun l => ~ sets_key key l) l2.

(** No newline in [s]. *)
Definition no_newline (s : string) : Prop :=
  string_forallb (fun c => negb (Ascii.eqb c newline)) s = true.

(** The characters that do not end a line when the file is read:
    neither a newline nor a carriage return. *)
Definition line_char (c : ascii) : bool :=
  negb (Ascii.eqb c newline) && negb (Ascii.eqb c carriage_return).

Definition no_line_end (s : string) : Prop :=
  string_forallb line_char s = true.

(** The ASCII characters, which every encoding of the file that is in
    use writes and reads alike. *)
Definition is_ascii (c : ascii) : bool := (nat_of_ascii c <? 128)%nat.

(** The characters of a key that keep a header line in one piece and
    its key apart from its value: ASCII, no end of line and no tab. *)
Definition key_char (c : ascii) : bool :=
  is_ascii c && line_char c && negb (Ascii.eqb c tab).

(** The characters of a value that keep its line in one piece. *)
Definition value_char (c : ascii) : bool := is_ascii c && line_char c.

(** An entry of the metadata that [save] writes on a line of its own. *)
Definition header_entry `{Formatting} (kv : string * meta_value) : Prop :=
  string_forallb key_char kv.1 = true
  /\ string_forallb value_char (str_value kv.2) = true.

(** The characters that neither end a line nor start a comment. *)
Definition plain_char (c : ascii) : bool :=
  line_char c && negb (Ascii.eqb c "#").

(** The line of the file for an entry of the metadata. *)
Definition metadata_line `{Formatting} (kv : string * meta_value) : string :=
  ("# " +:+ kv.1 +:+ String ":" (String tab (str_value kv.2)))
  +:+ String newline EmptyString.

(** One line of the table, without its newline. *)
Definition row_line (row : list Q) : string :=
  join (String tab EmptyString) (format_9E <$> row).

(** The metadata that [load] reads from a file that [save] wrote. *)
Definition reloaded `{Formatting} (items : list (string * meta_value))
  : gmap string meta_value :=
  list_to_map ((fun kv => (kv.1, MStr (str_value kv.2)))
                 <$> filter (fun kv => string_forallb is_word kv.1 = true) items).

(** * Properties *)

(** ** Exceptions *)

Lemma bind_Ok {A B} (r : result A) (f : A -> result B) (b : B) :
  bind r f = Ok b <-> exists a, r = Ok a /\ f a = Ok b.
Proof.
  split.
  - destruct r as [a | e]; simpl; [eauto | discriminate].
  - intros (a & -> & Hf). exact Hf.
Qed.

Lemma bind_Raise {A B} (r : result A) (f : A -> result B) (e : exn) :
  bind r f = Raise e <-> r = Raise e \/ exists a, r = Ok a /\ f a = Raise e.
Proof.
  split.
  - destruct r as [a | e']; simpl; [eauto | intros [= ->]; auto].
  - intros [-> | (a & -> & Hf)]; [reflexivity | exact Hf].
Qed.

(** ** Python slices *)

Lemma slice_bound_le (n : nat) (i : Z) : slice_bound n i <= n.
Proof. unfold slice_bound. case_decide; lia. Qed.

Lemma slice_bound_nonneg (n : nat) (i : Z) :
  (0 <= i)%Z -> slice_bound n i = Z.to_nat i `min` n.
Proof. intros Hi. unfold slice_bound. rewrite decide_False by lia. lia. Qed.

Lemma slice_bound_neg (n : nat) (i : Z) :
  (i < 0)%Z -> slice_bound n i = n - Z.to_nat (- i).
Proof. intros Hi. unfold slice_bound. rewrite decide_True by lia. lia. Qed.

Lemma py_slice_fmap {A B} (f : A -> B) (a b : Z) (l : list A) :
  py_slice a b (f <$> l) = f <$> py_slice a b l.
Proof. unfold py_slice. by rewrite length_fmap, fmap_take, fmap_drop. Qed.

Lemma py_slice_prefix {A} (k : nat) (l : list A) :
  py_slice 0 (Z.of_nat k) l = take k l.
Proof.
  unfold py_slice.
  rewrite (slice_bound_nonneg _ 0), (slice_bound_nonneg _ (Z.of_nat k)) by lia.
  change (Z.to_nat 0) with 0. rewrite Nat.min_0_l, Nat.sub_0_r, Nat2Z.id, drop_0.
  destruct (decide (k <= length l)).
  - by rewrite Nat.min_l.
  - rewrite Nat.min_r by lia. rewrite firstn_all. symmetry. apply take_ge. lia.
Qed.

Lemma py_slice_tail {A} (k : nat) (l : list A) :
  0 < k ->
  py_slice (- Z.of_nat k) (-1) l
  = take (length l - 1 - (length l - k)) (drop (length l - k) l).
Proof.
  intros Hk. unfold py_slice.
  rewrite (slice_bound_neg _ (- Z.of_nat k)), (slice_bound_neg _ (-1)) by lia.
  repeat f_equal; lia.
Qed.

Lemma py_slice_minus_zero {A} (l : list A) :
  py_slice (- Z.of_nat 0) (-1) l = take (length l - 1) l.
Proof.
  unfold py_slice. change (- Z.of_nat 0)%Z with 0%Z.
  rewrite (slice_bound_nonneg _ 0), (slice_bound_neg _ (-1)) by lia.
  change (Z.to_nat 0) with 0. change (Z.to_nat (- -1)) with 1.
  by rewrite Nat.min_0_l, Nat.sub_0_r, drop_0.
Qed.

Lemma elem_of_py_slice_seq (a b : Z) (n i : nat) :
  i ∈ py_slice a b (seq 0 n) <-> slice_bound n a <= i < slice_bound n b.
Proof.
  unfold py_slice. rewrite length_seq.
  pose proof (slice_bound_le n a). pose proof (slice_bound_le n b).
  rewrite drop_seq, take_seq, elem_of_seq. lia.
Qed.

(** ** The starting-point heuristic *)

Lemma getitem_Ok {A} (l : list A) (i : nat) (a : A) :
  getitem l i = Ok a <-> l !! i = Some a.
Proof. unfold getitem. destruct (l !! i); split; congruence. Qed.

Lemma bool_index_Ok {A} (a : list A) (mask : list bool) (sel : list A) :
  bool_index a mask = Ok sel ->
  length a = length mask
  /\ sel = (filter (fun p => p.2 = true) (zip a mask)).*1.
Proof. unfold bool_index. case_decide; [intros [= <-]; done | discriminate]. Qed.

Lemma py_max_ge_r (a b : Q) : (b <= py_max a b)%Q.
Proof.
  unfold py_max. case_decide as Hab.
  - apply Qle_refl.
  - by apply Qnot_lt_le.
Qed.

Lemma starting_points_inv (x y : list Q) (c fwhm area : Q) :
  _get_fit_starting_points x y = Ok (c, fwhm, area) ->
  c ∈ x /\ (1 <= fwhm)%Q /\ length x = length y.
Proof.
  unfold _get_fit_starting_points. intros Hsp.
  apply bind_Ok in Hsp as (i & Hi & Hsp).
  apply bind_Ok in Hsp as (c' & Hc & Hsp).
  apply bind_Ok in Hsp as (ymin & Hmin & Hsp).
  apply bind_Ok in Hsp as (sel & Hsel & Hsp).
  apply bind_Ok in Hsp as (hi & Hhi & Hsp).
  apply bind_Ok in Hsp as (lo & Hlo & Hsp).
  destruct (_ <$> np_mean2 _ _) as [h |]; [| discriminate].
  injection Hsp as <- <- <-.
  apply getitem_Ok in Hc. apply bool_index_Ok in Hsel as [Hlen _].
  rewrite length_fmap in Hlen.
  split; [by eapply list_elem_of_lookup_2 |].
  split; [apply py_max_ge_r | done].
Qed.

Lemma background_fmap {A B} (f : A -> B) (x : list Q) (c w : Q) (l : list A) :
  background x c w (f <$> l) = f <$> background x c w l.
Proof. unfold background. by rewrite !py_slice_fmap, fmap_app. Qed.

Lemma list_fmap_lookup_seq {A} (d : A) (l : list A) :
  l = (fun i => default d (l !! i)) <$> seq 0 (length l).
Proof.
  apply list_eq. intros i. rewrite list_lookup_fmap.
  destruct (decide (i < length l)) as [Hi | Hi].
  - rewrite lookup_seq_lt by done. simpl.
    destruct (lookup_lt_is_Some_2 l i Hi) as [a Ha]. by rewrite Ha.
  - rewrite lookup_seq_ge by lia. simpl. apply lookup_ge_None. lia.
Qed.

Lemma fold_min_spec (v : Q) (l : list Q) :
  let m := foldl (fun m u => if decide (u < m)%Q then u else m) v l in
  m ∈ v :: l /\ Forall (fun u => m <= u)%Q (v :: l).
Proof.
  revert v. induction l as [| u l IH]; intros v; simpl.
  - split; [apply list_elem_of_here | repeat constructor; apply Qle_refl].
  - case_decide as Hlt.
    + destruct (IH u) as [Hin Hall]. split; [by apply list_elem_of_further |].
      apply Forall_cons_1 in Hall as [Hu Hall].
      constructor; [| by constructor].
      apply Qlt_le_weak in Hlt. by eapply Qle_trans.
    + destruct (IH v) as [Hin Hall].
      split; [apply elem_of_cons in Hin as [-> | Hin];
              [apply list_elem_of_here | by do 2 apply list_elem_of_further] |].
      apply Forall_cons_1 in Hall as [Hv Hall].
      constructor; [done |]. constructor; [| done].
      apply Qnot_lt_le in Hlt. by eapply Qle_trans.
Qed.

Lemma np_min_spec (l : list Q) (m : Q) :
  np_min l = Ok m -> m ∈ l /\ Forall (fun u => m <= u)%Q l.
Proof.
  destruct l as [| v l]; [discriminate |]. intros [= <-]. apply fold_min_spec.
Qed.

Lemma fold_max_spec (v : Q) (l : list Q) :
  let m := foldl (fun m u => if decide (m < u)%Q then u else m) v l in
  m ∈ v :: l /\ Forall (fun u => u <= m)%Q (v :: l).
Proof.
  revert v. induction l as [| u l IH]; intros v; simpl.
  - split; [apply list_elem_of_here | repeat constructor; apply Qle_refl].
  - case_decide as Hlt.
    + destruct (IH u) as [Hin Hall]. split; [by apply list_elem_of_further |].
      apply Forall_cons_1 in Hall as [Hu Hall].
      constructor; [| by constructor].
      apply Qlt_le_weak in Hlt. by eapply Qle_trans.
    + destruct (IH v) as [Hin Hall].
      split; [apply elem_of_cons in Hin as [-> | Hin];
              [apply list_elem_of_here | by do 2 apply list_elem_of_further] |].
      apply Forall_cons_1 in Hall as [Hv Hall].
      constructor; [done |]. constructor; [| done].
      apply Qnot_lt_le in Hlt. by eapply Qle_trans.
Qed.

Lemma np_max_spec (l : list Q) (m : Q) :
  np_max l = Ok m -> m ∈ l /\ Forall (fun u => u <= m)%Q l.
Proof.
  destruct l as [| v l]; [discriminate |]. intros [= <-]. apply fold_max_spec.
Qed.

(** [argmin_from] scans [l], whose first element has index [i]; [best]
    is the index of the least value [m] seen before. *)
Lemma argmin_from_spec (pre l : list Q) (best : nat) (m : Q) :
  pre !! best = Some m ->
  Forall (fun u => m <= u)%Q pre ->
  (forall j u, j < best -> pre !! j = Some u -> (m < u)%Q) ->
  let i := argmin_from best m (length pre) l in
  exists m', (pre ++ l) !! i = Some m'
    /\ Forall (fun u => m' <= u)%Q (pre ++ l)
    /\ (forall j u, j < i -> (pre ++ l) !! j = Some u -> (m' < u)%Q).
Proof.
  revert pre best m. induction l as [| u l IH]; intros pre best m Hbest Hall Hfirst.
  - simpl. rewrite app_nil_r. eauto.
  - simpl. replace (pre ++ u :: l) with ((pre ++ [u]) ++ l)
      by (by rewrite <- app_assoc).
    replace (S (length pre)) with (length (pre ++ [u]))
      by (rewrite length_app; simpl; lia).
    case_decide as Hlt.
    + apply IH.
      * rewrite lookup_app_r by lia. by rewrite Nat.sub_diag.
      * apply Forall_app. split; [| repeat constructor; apply Qle_refl].
        eapply Forall_impl; [exact Hall |]. intros w Hw. simpl in Hw.
        apply Qlt_le_weak in Hlt. by eapply Qle_trans.
      * intros j w Hj Hjw. rewrite lookup_app_l in Hjw by done.
        apply list_elem_of_lookup_2 in Hjw.
        rewrite Forall_forall in Hall. specialize (Hall w Hjw).
        by eapply Qlt_le_trans.
    + apply IH.
      * rewrite lookup_app_l; [done |]. by eapply lookup_lt_Some.
      * apply Forall_app. split; [done |]. repeat constructor.
        by apply Qnot_lt_le.
      * intros j w Hj Hjw. apply (Hfirst j w Hj).
        rewrite lookup_app_l in Hjw; [done |].
        apply lookup_lt_Some in Hbest. lia.
Qed.

(** [np.argmin] returns the first index at which the minimum is taken. *)
Lemma np_argmin_spec (l : list Q) (i : nat) :
  np_argmin l = Ok i ->
  exists m, l !! i = Some m
    /\ Forall (fun u => m <= u)%Q l
    /\ (forall j u, j < i -> l !! j = Some u -> (m < u)%Q).
Proof.
  destruct l as [| v l]; [discriminate |]. intros [= <-].
  apply (argmin_from_spec [v] l 0 v); [done | | intros; lia].
  repeat constructor. apply Qle_refl.
Qed.

(** Indexing with the mask of a comparison selects the samples that
    satisfy it. *)
Lemma bool_mask_filter {A} (P : Q -> Prop) `{forall v, Decision (P v)}
    (x : list A) (y : list Q) :
  (filter (fun p => p.2 = true) (zip x ((fun v => bool_decide (P v)) <$> y))).*1
  = (filter (fun p => P p.2) (zip x y)).*1.
Proof.
  revert y. induction x as [| u x IH]; intros [| v y]; simpl; try done.
  rewrite !filter_cons. simpl. destruct (decide (P v)) as [Hv | Hv].
  - rewrite bool_decide_eq_true_2 by done. rewrite decide_True by done.
    simpl. by rewrite IH.
  - rewrite bool_decide_eq_false_2 by done. rewrite decide_False by done.
    apply IH.
Qed.

(** What [_get_fit_starting_points] returns, when it returns. *)
Lemma starting_points_returned (x y : list Q) (c w a : Q) :
  _get_fit_starting_points x y = Ok (c, w, a) ->
  let k := length x / 4 in
  exists i ymin b1 b2 hi lo,
    let h := ((b1 + b2) / 2 - ymin)%Q in
    let sel := (filter (fun p => p.2 < h / 2 + ymin)%Q (zip x y)).*1 in
    (* the dip center: the x-value at the first global minimum of y *)
    np_argmin y = Ok i /\ x !! i = Some c
    /\ np_min y = Ok ymin
    (* the baseline: first quartile, and last quartile without the last sample *)
    /\ np_mean (take k y) = Some b1
    /\ np_mean (py_slice (- Z.of_nat k) (-1) y) = Some b2
    (* the width: the span of the samples below half height, at least 1 *)
    /\ np_max sel = Ok hi /\ np_min sel = Ok lo
    /\ w = py_max (hi - lo) 1 /\ (1 <= w)%Q
    (* the area *)
    /\ a = (h * w * math_pi / 2)%Q.
Proof.
  intros Hsp k. unfold _get_fit_starting_points in Hsp.
  apply bind_Ok in Hsp as (i & Hi & Hsp).
  apply bind_Ok in Hsp as (c' & Hc & Hsp).
  apply bind_Ok in Hsp as (ymin & Hmin & Hsp).
  apply bind_Ok in Hsp as (sel & Hsel & Hsp).
  apply bind_Ok in Hsp as (hi & Hhi & Hsp).
  apply bind_Ok in Hsp as (lo & Hlo & Hsp).
  rewrite py_slice_prefix in Hsel, Hsp. fold k in Hsel, Hsp.
  destruct (np_mean (take k y)) as [b1 |]; [| discriminate].
  destruct (np_mean (py_slice _ _ y)) as [b2 |]; [| discriminate].
  simpl in Hsel, Hsp. injection Hsp as <- <- <-.
  apply getitem_Ok in Hc. apply bool_index_Ok in Hsel as [Hlen ->].
  rewrite (bool_mask_filter (fun v => v < ((b1 + b2) / 2 - ymin) / 2 + ymin)%Q)
    in Hhi, Hlo.
  exists i, ymin, b1, b2, hi, lo. simpl.
  repeat split; try done. apply py_max_ge_r.
Qed.

(** C5. The baseline of [_get_fit_starting_points] leaves the last sample
    out of the second mean: the slice [y_data[-k:-1]] stops before it.
    On eight points whose last sample is lower than its neighbour the
    peak height is 10, where the baseline over the whole last quartile
    gives 8.5; the peak areas differ accordingly. *)
Theorem baseline_skips_last_sample :
  let x := arange 8 in
  let y := inject_Z <$> [10; 10; 10; 0; 10; 10; 10; 4]%Z in
  (exists c w a,
      _get_fit_starting_points x y = Ok (c, w, a)
      /\ c == 3 /\ w == 4 /\ a == 10 * 4 * math_pi / 2)%Q
  /\ (exists c w a,
        spec_starting_points x y = Ok (c, w, a)
        /\ c == 3 /\ w == 4 /\ a == (17 # 2) * 4 * math_pi / 2)%Q
  /\ _get_fit_starting_points x y <> spec_starting_points x y.
Proof.
  intros x y. split; [| split].
  - do 3 eexists. split; [vm_compute; reflexivity |].
    repeat split; vm_compute; reflexivity.
  - do 3 eexists. split; [vm_compute; reflexivity |].
    repeat split; vm_compute; reflexivity.
  - vm_compute. discriminate.
Qed.

(** ** The background samples *)

(** C9. In [fit_qvalue] the last sample (index [n - 1]) is never part of
    the background samples; and when no sample lies above
    [peak_center + 3 * fwhm], so that [idx2] is zero, the second slice is
    the whole array without its last element: the background then holds
    every sample but the last, the dip included. *)
Theorem background_excludes_last (x y : list Q) (c fwhm area : Q) :
  _get_fit_starting_points x y = Ok (c, fwhm, area) ->
  let n := length x in
  let idx1 := count_if (fun v => v < c - 3 * fwhm)%Q x in
  let idx2 := count_if (fun v => c + 3 * fwhm < v)%Q x in
  let indices := background x c fwhm (seq 0 n) in
  background x c fwhm x = (fun i => default 0%Q (x !! i)) <$> indices
  /\ background x c fwhm y = (fun i => default 0%Q (y !! i)) <$> indices
  /\ ((n - 1) ∉ indices)
  /\ (idx2 = 0 ->
        py_slice (- Z.of_nat idx2) (-1) x = take (n - 1) x
        /\ background x c fwhm x = take idx1 x ++ take (n - 1) x
        /\ background x c fwhm y = take idx1 y ++ take (n - 1) y
        /\ forall i, i < n - 1 -> i ∈ indices).
Proof.
  intros Hsp n idx1 idx2 indices.
  destruct (starting_points_inv _ _ _ _ _ Hsp) as (Hc & Hw & Hlen).
  assert (Hidx1 : idx1 < n).
  { apply (length_filter_lt _ x c Hc). apply Qle_not_lt. lra. }
  split; [| split; [| split]].
  - subst indices n. rewrite <- background_fmap, <- list_fmap_lookup_seq. done.
  - subst indices n. rewrite Hlen at 1.
    rewrite <- background_fmap, <- list_fmap_lookup_seq. done.
  - subst indices. unfold background. rewrite elem_of_app.
    rewrite !elem_of_py_slice_seq.
    rewrite (slice_bound_nonneg _ (Z.of_nat _)), (slice_bound_neg _ (-1)) by lia.
    fold idx1. lia.
  - intros Hidx2. rewrite Hidx2.
    split; [apply py_slice_minus_zero |].
    unfold background. fold idx1 idx2. rewrite Hidx2.
    rewrite !py_slice_prefix, !py_slice_minus_zero, <- Hlen.
    split; [done | split; [done |]].
    intros i Hi. subst indices. unfold background. fold idx2. rewrite Hidx2.
    apply elem_of_app. right. rewrite py_slice_minus_zero, length_seq.
    rewrite take_seq. apply elem_of_seq. lia.
Qed.

Lemma background_excludes_last_witness :
  let x := arange 16 in
  let y := inject_Z <$> [10; 10; 10; 10; 10; 10; 10; 10; 10; 10; 10; 10; 10; 10; 0; 10]%Z in
  (15 ∉ background x 14 1 (seq 0 16))
  /\ background x 14 1 x = take 11 x ++ take 15 x.
Proof.
  intros x y.
  assert (Hsp : _get_fit_starting_points x y
                = Ok (14, 1, 176855943800711000 # 13510798882111488)%Q)
    by (vm_compute; reflexivity).
  destruct (background_excludes_last x y _ _ _ Hsp) as (_ & _ & Hlast & Hzero).
  split; [exact Hlast |].
  destruct Hzero as (_ & Hbg & _); [vm_compute; reflexivity | exact Hbg].
Defined.

Lemma filter_none {A} (P : A -> Prop) `{forall a, Decision (P a)} (l : list A) :
  Forall (fun a => ~ P a) l -> filter P l = [].
Proof.
  induction 1 as [| a l Ha _ IH]; [done |]. by rewrite filter_cons_False.
Qed.

Lemma filter_all {A} (P : A -> Prop) `{forall a, Decision (P a)} (l : list A) :
  Forall P l -> filter P l = l.
Proof.
  induction 1 as [| a l Ha _ IH]; [done |].
  rewrite filter_cons_True by done. by rewrite IH.
Qed.

(** On an ascending axis the samples below [lo] are the first ones and
    the samples above [hi] the last ones. *)
Lemma spec_background_sorted {A} (x : list Q) (lo hi : Q) (data : list A) :
  (lo <= hi)%Q ->
  StronglySorted Qle x ->
  length data = length x ->
  (filter (fun p => p.1 < lo \/ hi < p.1)%Q (zip x data)).*2
  = take (count_if (fun v => v < lo)%Q x) data
      ++ drop (length x - count_if (fun v => hi < v)%Q x) data.
Proof.
  intros Hlh Hs. revert data. unfold count_if.
  induction Hs as [| v x Hs IH Hv]; intros [| a data] Hlen; try done.
  injection Hlen as Hlen. specialize (IH data Hlen).
  pose proof (length_filter (fun v => hi < v)%Q x) as Hle.
  change (zip (v :: x) (a :: data)) with ((v, a) :: zip x data).
  rewrite !filter_cons. cbn [fst length].
  destruct (decide (v < lo)%Q) as [Hlo | Hlo].
  - rewrite decide_True by (by left).
    rewrite decide_False by lra.
    rewrite fmap_cons, IH. cbn [snd length take app]. f_equal. f_equal.
    replace (S (length x) - length (filter (fun v => hi < v)%Q x))
      with (S (length x - length (filter (fun v => hi < v)%Q x))) by lia.
    done.
  - assert (Hnone : filter (fun v => v < lo)%Q x = []).
    { apply filter_none. eapply Forall_impl; [exact Hv |].
      intros u Hu. simpl in Hu. lra. }
    rewrite Hnone in IH |- *. cbn [length take app] in IH |- *.
    destruct (decide (hi < v)%Q) as [Hhi | Hhi].
    + rewrite decide_True by (by right).
      assert (Hall : filter (fun v => hi < v)%Q x = x).
      { apply filter_all. eapply Forall_impl; [exact Hv |].
        intros u Hu. simpl in Hu. lra. }
      rewrite Hall in IH |- *. rewrite Nat.sub_diag in IH.
      rewrite fmap_cons, IH. cbn [length]. by rewrite Nat.sub_diag.
    + rewrite decide_False by (intros [? | ?]; done).
      rewrite IH.
      replace (S (length x) - length (filter (fun v => hi < v)%Q x))
        with (S (length x - length (filter (fun v => hi < v)%Q x))) by lia.
      done.
Qed.

(** On an ascending axis with some sample above [peak_center + 3 fwhm]
    the background of [fit_qvalue] is the background of the
    specification without its last sample. *)
Lemma background_sorted {A} (x : list Q) (c fwhm : Q) (data : list A) :
  (0 <= fwhm)%Q ->
  StronglySorted Qle x ->
  length data = length x ->
  0 < count_if (fun v => c + 3 * fwhm < v)%Q x ->
  spec_background x c fwhm data
  = background x c fwhm data ++ drop (length data - 1) data.
Proof.
  intros Hw Hs Hlen Hidx2. unfold spec_background, background.
  rewrite spec_background_sorted by (done || lra).
  rewrite py_slice_prefix, py_slice_tail by done.
  rewrite <- app_assoc. f_equal.
  set (k := count_if _ x) in *.
  assert (Hk : k <= length x) by apply length_filter.
  rewrite Hlen.
  rewrite <- (take_drop (length x - 1 - (length x - k)) (drop (length x - k) data))
    at 1.
  f_equal. rewrite drop_drop. f_equal. lia.
Qed.

(** C4. The background samples of [fit_qvalue] are not the samples
    outside [[peak_center - 3 fwhm, peak_center + 3 fwhm]].  On sixteen
    points with the dip at index 8 the estimate is [(8, 1)]: sample 15
    lies outside the interval and is left out.  With the dip at index 14
    the estimate is [(14, 1)] and [idx2] is zero: samples 11 to 14, the
    dip itself, are part of the background. *)
Theorem background_differs_from_spec :
  let x := arange 16 in
  let y_mid := inject_Z <$>
    [10; 10; 10; 10; 10; 10; 10; 10; 0; 10; 10; 10; 10; 10; 10; 10]%Z in
  let y_edge := inject_Z <$>
    [10; 10; 10; 10; 10; 10; 10; 10; 10; 10; 10; 10; 10; 10; 0; 10]%Z in
  (exists area, _get_fit_starting_points x y_mid = Ok (8, 1, area)%Q)
  /\ background x 8 1 (seq 0 16) = [0; 1; 2; 3; 4; 12; 13; 14]
  /\ spec_background x 8 1 (seq 0 16) = [0; 1; 2; 3; 4; 12; 13; 14; 15]
  /\ (exists area, _get_fit_starting_points x y_edge = Ok (14, 1, area)%Q)
  /\ background x 14 1 (seq 0 16)
     = [0; 1; 2; 3; 4; 5; 6; 7; 8; 9; 10]
         ++ [0; 1; 2; 3; 4; 5; 6; 7; 8; 9; 10; 11; 12; 13; 14]
  /\ spec_background x 14 1 (seq 0 16) = [0; 1; 2; 3; 4; 5; 6; 7; 8; 9; 10].
Proof.
  intros x y_mid y_edge.
  split; [eexists; vm_compute; reflexivity |].
  split; [vm_compute; reflexivity |].
  split; [vm_compute; reflexivity |].
  split; [eexists; vm_compute; reflexivity |].
  split; vm_compute; reflexivity.
Qed.

(** ** Axis conversion *)

Lemma length_arange (n : Z) : length (arange n) = Z.to_nat n.
Proof. unfold arange. by rewrite length_fmap, length_seq. Qed.

Lemma lookup_arange (n : Z) (i : nat) :
  (Z.of_nat i < n)%Z -> arange n !! i = Some (inject_Z (Z.of_nat i)).
Proof.
  intros Hi. unfold arange. rewrite list_lookup_fmap.
  rewrite lookup_seq_lt by lia. reflexivity.
Qed.

Lemma inject_Z_nonzero (z : Z) : z <> 0%Z -> ~ (inject_Z z == 0)%Q.
Proof. intros Hz Heq. apply Hz. unfold Qeq in Heq. simpl in Heq. lia. Qed.

Lemma py_div_Ok (a b : Q) : ~ (b == 0)%Q -> py_div a b = Ok (a / b)%Q.
Proof. intros Hb. unfold py_div. by rewrite decide_False. Qed.

Lemma py_div_zero (a b : Q) : (b == 0)%Q -> py_div a b = Raise ZeroDivisionError.
Proof. intros Hb. unfold py_div. by rewrite decide_True. Qed.

(** C3. For [n_points >= 0] and a zoom factor [zf >= 1], [_points_to_mhz]
    returns a sequence of exactly [n_points] elements whose [i]-th element
    is [(i - x0) / (2000 * zf)]. *)
Theorem points_to_mhz_linear (n_points zf : Z) (x0 : Q) :
  (0 <= n_points)%Z -> (1 <= zf)%Z ->
  exists axis,
    _points_to_mhz n_points zf x0 = Ok axis
    /\ Z.of_nat (length axis) = n_points
    /\ forall i : nat, (Z.of_nat i < n_points)%Z ->
         exists v, axis !! i = Some v
           /\ (v == (inject_Z (Z.of_nat i) - x0) / inject_Z (2000 * zf))%Q.
Proof.
  intros Hn Hzf. unfold _points_to_mhz.
  rewrite py_div_Ok by (apply inject_Z_nonzero; lia).
  eexists; split; [reflexivity |]. split.
  - rewrite length_fmap, length_arange. lia.
  - intros i Hi. eexists. split.
    + rewrite list_lookup_fmap, lookup_arange by done. reflexivity.
    + assert (Hz : ~ (inject_Z zf == 0)%Q) by (apply inject_Z_nonzero; lia).
      rewrite !inject_Z_mult. unfold milli. field. done.
Qed.

Lemma points_to_mhz_linear_witness :
  exists axis,
    _points_to_mhz 4 2 (3 # 2) = Ok axis
    /\ Z.of_nat (length axis) = 4%Z
    /\ forall i : nat, (Z.of_nat i < 4)%Z ->
         exists v, axis !! i = Some v
           /\ (v == (inject_Z (Z.of_nat i) - (3 # 2)) / inject_Z (2000 * 2))%Q.
Proof. apply (points_to_mhz_linear 4 2 (3 # 2)); lia. Defined.

(** ** The Q-value and its standard error *)

Lemma scaled_width_zero (w d : Q) :
  ~ (d == 0)%Q -> (w * milli / d == 0 <-> w == 0)%Q.
Proof.
  intros Hd. split; intros Hw.
  - assert (Hm : (w * milli / d * d == w * milli)%Q) by (field; done).
    rewrite Hw in Hm. unfold milli in Hm. lra.
  - rewrite Hw. field. done.
Qed.

Lemma Qsquare_zero (a : Q) : (a ^ 2 == 0 <-> a == 0)%Q.
Proof.
  split; intros Ha.
  - simpl in Ha. destruct (Qmult_integral _ _ Ha); done.
  - rewrite Ha. reflexivity.
Qed.

(** C1. For every width [w] that the fit returns, every zoom factor
    [z >= 1] and every [freq0], [fit_qvalue] returns
    [round(freq0 / (w * 1e-3 / (2 * z)), 1)]; and [get_qvalue_stderr]
    returns [round(freq0 / deltaFreq ^ 2 * deltaFreq_err, 1)] with
    [deltaFreq = w * 1e-3 / 2] and [deltaFreq_err = w_stderr * 1e-3 / 2],
    in which no zoom factor occurs: it is the width of zoom factor 1.
    The two quotients are those of [py_div]; they exist for every width
    other than zero. *)
Theorem qvalue_formulas `{Lmfit} (freq0 : Q) (x y : list Q) (z : Z)
    (c fwhm area : Q) (pc : list Q) (fr : ModelResult) :
  (1 <= z)%Z ->
  _get_fit_starting_points x y = Ok (c, fwhm, area) ->
  guess (background x c fwhm y) (background x c fwhm x) = Some pc ->
  fit y (mkParameters pc c fwhm area) x = Some fr ->
  let w := best_values_w fr in
  fit_qvalue freq0 x y z
    = (let! q := py_div freq0 (w * milli / inject_Z (2 * z))%Q in
       Ok (py_round1 q, fr))
  /\ (forall w_stderr, stderr (params_w fr) = Some w_stderr ->
        let deltaFreq := (w * milli / 2)%Q in
        let deltaFreq_err := (w_stderr * milli / 2)%Q in
        get_qvalue_stderr freq0 fr
          = (let! q := py_div freq0 (deltaFreq ^ 2)%Q in
             Ok (py_round1 (q * deltaFreq_err)%Q)))
  /\ (w * milli / 2 == w * milli / inject_Z (2 * 1))%Q
  /\ (~ w == 0 ->
       fit_qvalue freq0 x y z
         = Ok (py_round1 (freq0 / (w * milli / inject_Z (2 * z))), fr)
       /\ forall w_stderr, stderr (params_w fr) = Some w_stderr ->
            let deltaFreq := w * milli / 2 in
            let deltaFreq_err := w_stderr * milli / 2 in
            get_qvalue_stderr freq0 fr
              = Ok (py_round1 (freq0 / deltaFreq ^ 2 * deltaFreq_err)))%Q.
Proof.
  intros Hz Hsp Hguess Hfit w.
  assert (Hz2 : ~ (inject_Z (2 * z) == 0)%Q) by (apply inject_Z_nonzero; lia).
  assert (Hfq : fit_qvalue freq0 x y z
                = bind (py_div freq0 (w * milli / inject_Z (2 * z))%Q)
                       (fun q => Ok (py_round1 q, fr))).
  { unfold fit_qvalue. rewrite Hsp. simpl. rewrite Hguess. simpl.
    rewrite Hfit. simpl. rewrite py_div_Ok by done. reflexivity. }
  assert (Hse : forall e, stderr (params_w fr) = Some e ->
                get_qvalue_stderr freq0 fr
                = bind (py_div freq0 ((w * milli / 2) ^ 2)%Q)
                       (fun q => Ok (py_round1 (q * (e * milli / 2))%Q))).
  { intros e He. unfold get_qvalue_stderr. rewrite He. reflexivity. }
  split; [exact Hfq |]. split; [exact Hse |]. split; [reflexivity |].
  intros Hw. split.
  - rewrite Hfq, py_div_Ok; [reflexivity |].
    by rewrite scaled_width_zero.
  - intros e He. simpl. rewrite (Hse e He), py_div_Ok; [reflexivity |].
    rewrite Qsquare_zero, scaled_width_zero; done.
Qed.

Lemma qvalue_formulas_witness :
  let x := arange 16 in
  let y := inject_Z <$>
    [10; 10; 10; 10; 10; 10; 10; 10; 0; 10; 10; 10; 10; 10; 10; 10]%Z in
  let lmfit := Concrete.first_guess (Some (1 # 2)%Q) in
  exists fr,
    best_values_w fr = 1%Q
    /\ stderr (params_w fr) = Some (1 # 2)%Q
    /\ fit_qvalue (9385 # 1000) x y 2
       = Ok (py_round1 ((9385 # 1000) / (1 * milli / inject_Z (2 * 2))), fr)%Q
    /\ get_qvalue_stderr (9385 # 1000) fr
       = Ok (py_round1 ((9385 # 1000) / (1 * milli / 2) ^ 2
                        * ((1 # 2) * milli / 2)))%Q.
Proof.
  intros x y lmfit.
  pose (area := (212227132560853200 # 13510798882111488)%Q).
  pose (pars := mkParameters (replicate 8 0%Q) 8 1 area).
  pose (fr := mkModelResult
                (mkFitParameter 8 (Some (1 # 2)%Q))
                (mkFitParameter 1 (Some (1 # 2)%Q))
                (mkFitParameter area (Some (1 # 2)%Q))
                (replicate 8 (mkFitParameter 0 (Some (1 # 2)%Q)))).
  exists fr. split; [reflexivity |]. split; [reflexivity |].
  destruct (qvalue_formulas (9385 # 1000) x y 2 8 1 area (replicate 8 0%Q) fr)
    as (_ & _ & _ & Hq).
  - lia.
  - vm_compute. reflexivity.
  - reflexivity.
  - reflexivity.
  - destruct Hq as [Hq Hse]; [vm_compute; discriminate |].
    split; [exact Hq | exact (Hse (1 # 2)%Q eq_refl)].
Defined.

(** ** The concrete numpy *)

Module Concrete_facts.
Import Concrete.

Lemma insert_index_perm (l : list Q) (i : nat) (s : list nat) :
  insert_index l i s ≡ₚ i :: s.
Proof.
  induction s as [| j js IH]; simpl; [done |].
  case_decide; [done |]. rewrite IH. apply Permutation_swap.
Qed.

Lemma insert_index_sorted (l : list Q) (i : nat) (s : list nat) :
  StronglySorted Qle (key l <$> s) ->
  StronglySorted Qle (key l <$> insert_index l i s).
Proof.
  induction s as [| j js IH]; simpl; intros Hs.
  - repeat constructor.
  - apply StronglySorted_inv in Hs as [Hjs Hj]. case_decide as Hij.
    + simpl. constructor; [by constructor |].
      constructor; [by apply Qlt_le_weak |].
      eapply Forall_impl; [exact Hj |]. intros v Hv. simpl in Hv.
      apply Qlt_le_weak in Hij. by eapply Qle_trans.
    + simpl. constructor; [by apply IH |].
      rewrite insert_index_perm. simpl.
      constructor; [by apply Qnot_lt_le | done].
Qed.

Lemma insertion_fold_perm (l : list Q) (ids acc : list nat) :
  foldl (fun acc i => insert_index l i acc) acc ids ≡ₚ ids ++ acc.
Proof.
  revert acc. induction ids as [| i ids IH]; intros acc; simpl; [done |].
  rewrite IH, insert_index_perm. by rewrite Permutation_middle.
Qed.

Lemma insertion_fold_sorted (l : list Q) (ids acc : list nat) :
  StronglySorted Qle (key l <$> acc) ->
  StronglySorted Qle
    (key l <$> foldl (fun acc i => insert_index l i acc) acc ids).
Proof.
  revert acc. induction ids as [| i ids IH]; intros acc Hacc; simpl; [done |].
  by apply IH, insert_index_sorted.
Qed.

Lemma insertion_argsort_perm (l : list Q) :
  insertion_argsort l ≡ₚ seq 0 (length l).
Proof.
  unfold insertion_argsort. by rewrite insertion_fold_perm, app_nil_r.
Qed.

Lemma insertion_argsort_sorted (l : list Q) :
  StronglySorted Qle ((fun i => default 0%Q (l !! i)) <$> insertion_argsort l).
Proof. apply insertion_fold_sorted. constructor. Qed.

End Concrete_facts.

(** The numpy on which the witnesses below are computed. *)
#[export] Instance numpy : Numpy := {|
    argsort := Concrete.insertion_argsort;
    argsort_perm := Concrete_facts.insertion_argsort_perm;
    argsort_sorted := Concrete_facts.insertion_argsort_sorted;
    loadtxt := Concrete.text_loadtxt;
  |}.

(** ** Combining the zoom factors *)

Lemma mapM_Ok {A B} (f : A -> result B) (l : list A) (k : list B) :
  mapM f l = Ok k <-> Forall2 (fun a b => f a = Ok b) l k.
Proof.
  revert k. induction l as [| a l IH]; intros k; simpl.
  - split; [intros [= <-]; constructor | by inversion 1].
  - split.
    + intros Hm. destruct (f a) as [b |] eqn:Hb; [| discriminate].
      simpl in Hm. destruct (mapM f l) as [k' |] eqn:Hk; [| discriminate].
      injection Hm as <-. constructor; [done | by apply IH].
    + inversion 1 as [| ? b ? k' Hb Hk]; subst. rewrite Hb. simpl.
      apply IH in Hk. rewrite Hk. done.
Qed.

Lemma take_indices_Ok {A} (d : A) (a : list A) (indices : list nat) :
  Forall (fun i => i < length a) indices ->
  take_indices a indices = Ok ((fun i => default d (a !! i)) <$> indices).
Proof.
  intros Hall. apply mapM_Ok. apply Forall2_fmap_r, Forall_Forall2_diag.
  eapply Forall_impl; [exact Hall |]. intros i Hi. simpl.
  destruct (lookup_lt_is_Some_2 a i Hi) as [v Hv].
  unfold getitem. by rewrite Hv.
Qed.

Lemma argsort_lt `{Numpy} (l : list Q) :
  Forall (fun i => i < length l) (argsort l).
Proof.
  rewrite (argsort_perm l). apply Forall_forall. intros i Hi.
  apply elem_of_seq in Hi. lia.
Qed.

Lemma length_argsort `{Numpy} (l : list Q) : length (argsort l) = length l.
Proof. by rewrite (argsort_perm l), length_seq. Qed.

Lemma zip_lookup_seq {A B} (da : A) (db : B) (a : list A) (b : list B) :
  length a = length b ->
  zip a b = (fun i => (default da (a !! i), default db (b !! i)))
              <$> seq 0 (length a).
Proof.
  intros Hlen. apply list_eq. intros i. rewrite list_lookup_fmap.
  destruct (decide (i < length a)) as [Hi | Hi].
  - rewrite lookup_seq_lt by done. simpl.
    destruct (lookup_lt_is_Some_2 a i Hi) as [u Hu].
    destruct (lookup_lt_is_Some_2 b i ltac:(lia)) as [v Hv].
    rewrite Hu, Hv. simpl. apply lookup_zip_with_Some. eauto.
  - rewrite lookup_seq_ge by lia. simpl. apply lookup_ge_None.
    rewrite length_zip_with. lia.
Qed.

Lemma zip_fmap_indices {A B} (f : nat -> A) (g : nat -> B) (l : list nat) :
  zip (f <$> l) (g <$> l) = (fun i => (f i, g i)) <$> l.
Proof. induction l; simpl; by f_equal. Qed.

Lemma rescale_returns `{Lmfit} (freq0 : Q) (n : nat) (e : Z * list Q) :
  (1 <= e.1)%Z ->
  returns (fit_qvalue freq0 (arange (Z.of_nat n)) e.2 e.1) ->
  exists axis, rescale freq0 (Z.of_nat n) e = Ok axis /\ length axis = n.
Proof.
  destruct e as [zf curve]. simpl. intros Hzf [[q fr] Hfit].
  unfold rescale. rewrite Hfit. simpl. unfold _points_to_mhz.
  rewrite py_div_Ok by (apply inject_Z_nonzero; lia).
  eexists. split; [reflexivity |].
  by rewrite length_fmap, length_arange, Nat2Z.id.
Qed.

Lemma length_concat_same {A} (n : nat) (ls : list (list A)) :
  Forall (fun l => length l = n) ls -> length (concat ls) = length ls * n.
Proof.
  induction 1 as [| l ls Hl _ IH]; simpl; [done |].
  rewrite length_app, IH, Hl. done.
Qed.

Lemma sum_list_same {A} (n : nat) (ls : list (list A)) :
  Forall (fun l => length l = n) ls ->
  sum_list (length <$> ls) = length ls * n.
Proof.
  induction 1 as [| l ls Hl _ IH]; [done |].
  rewrite fmap_cons. simpl. fold (fmap (M := list) (@length A)). rewrite IH, Hl. done.
Qed.



(** C2, as stated, fails: a dataset of two flat curves of sixteen
    samples has zoom factors and curves of one length as the claim asks,
    and [combine_data] returns nothing for it.  The heuristic finds no
    sample below the half-height threshold and raises [ValueError] in
    the first per-zoom fit, before lmfit is called: whatever the fit
    and the sort are. *)
Lemma combine_data_sorted_counterexample :
  let d := [(1%Z, Concrete.flat); (2%Z, Concrete.flat)] in
  d <> []
  /\ Forall (fun e => 1 <= e.1)%Z d
  /\ Forall (fun e => length e.2 = 16) d
  /\ forall (lmfit : Lmfit) (numpy : Numpy) (freq0 : Q),
       combine_data freq0 d = Raise ValueError.
Proof.
  intros d. split; [discriminate |].
  split; [repeat constructor; simpl; lia |].
  split; [repeat constructor |].
  intros lmfit numpy freq0. vm_compute. reflexivity.
Qed.

(** ** The exceptions raised *)

Lemma raises_python_Ok {A} (a : A) : raises_python (Ok a).
Proof. intros e [=]. Qed.

Lemma raises_python_Raise {A} (e : exn) :
  python_exn e -> raises_python (Raise e : result A).
Proof. by intros He e' [= <-]. Qed.

Lemma raises_python_bind {A B} (r : result A) (f : A -> result B) :
  raises_python r -> (forall a, raises_python (f a)) -> raises_python (bind r f).
Proof.
  intros Hr Hf e He. apply bind_Raise in He as [He | (a & _ & He)].
  - by apply Hr.
  - by apply (Hf a).
Qed.

Lemma raises_python_mapM {A B} (f : A -> result B) (l : list A) :
  (forall a, raises_python (f a)) -> raises_python (mapM f l).
Proof.
  intros Hf. induction l as [| a l IH]; simpl.
  - apply raises_python_Ok.
  - apply (raises_python_bind (f a)); [apply Hf |]. intros b.
    apply (raises_python_bind (mapM f l)); [apply IH |]. intros k.
    apply raises_python_Ok.
Qed.

Create HintDb raises.

Ltac solve_raises :=
  repeat first
    [ apply raises_python_Ok
    | apply raises_python_Raise; split; discriminate
    | solve [auto with raises]
    | apply raises_python_bind; [| intros ?]
    | apply raises_python_mapM; intros ?
    | match goal with
      | |- raises_python (match ?x with _ => _ end) => destruct x
      | |- raises_python (if ?x then _ else _) => destruct x
      end ].

Lemma raises_python_starting_points (x y : list Q) :
  raises_python (_get_fit_starting_points x y).
Proof.
  unfold _get_fit_starting_points, np_argmin, getitem, np_min, np_max,
    bool_index.
  solve_raises.
Qed.

#[local] Hint Resolve raises_python_starting_points : raises.

Lemma raises_python_fit_qvalue `{Lmfit} (freq0 : Q) (x y : list Q) (z : Z) :
  raises_python (fit_qvalue freq0 x y z).
Proof.
  unfold fit_qvalue, lmfit_call, py_div. solve_raises.
Qed.

#[local] Hint Resolve raises_python_fit_qvalue : raises.

Lemma raises_python_stderr (freq0 : Q) (fr : ModelResult) :
  raises_python (get_qvalue_stderr freq0 fr).
Proof. unfold get_qvalue_stderr, py_div. solve_raises. Qed.

#[local] Hint Resolve raises_python_stderr : raises.

Lemma raises_python_rescale `{Lmfit} (freq0 : Q) (n : Z) (e : Z * list Q) :
  raises_python (rescale freq0 n e).
Proof.
  destruct e as [zf curve]. unfold rescale, _points_to_mhz, py_div.
  solve_raises.
Qed.

#[local] Hint Resolve raises_python_rescale : raises.

Lemma raises_python_combine_data `{Lmfit} `{Numpy} (freq0 : Q)
    (d : list (Z * list Q)) :
  raises_python (combine_data freq0 d).
Proof.
  unfold combine_data, take_indices, getitem. solve_raises.
Qed.

#[local] Hint Resolve raises_python_combine_data : raises.

Lemma raises_python_load `{Lmfit} `{Numpy} (md : gmap string meta_value)
    (file : string) :
  raises_python (load md file).
Proof.
  unfold load, np_loadtxt, column, getitem, py_float.
  solve_raises.
Qed.

#[local] Hint Resolve raises_python_load : raises.

Lemma raises_python_init `{Lmfit} `{Numpy} `{Runtime}
    (input : constructor_input) (freq : Q)
    (md : option (gmap string meta_value)) :
  raises_python (__init__ input freq md).
Proof. unfold __init__. solve_raises. Qed.

(** ** Curves of different lengths *)

Lemma mapM_Raise_first {A B} (f : A -> result B) (l1 l2 : list A) (a : A)
    (e : exn) :
  Forall (fun a' => returns (f a')) l1 -> f a = Raise e ->
  mapM f (l1 ++ a :: l2) = Raise e.
Proof.
  intros Hl1 Ha. induction Hl1 as [| a' l1 [b Hb] _ IH]; simpl.
  - by rewrite Ha.
  - rewrite Hb. simpl. by rewrite IH.
Qed.

Lemma mapM_Raise_exists {A B} (f : A -> result B) (l : list A) (a : A) :
  a ∈ l -> ~ returns (f a) -> exists e, mapM f l = Raise e.
Proof.
  intros Hin Ha. induction Hin as [a l | a a' l Hin IH]; simpl.
  - destruct (f a) as [b | e]; [destruct Ha; by eexists | eauto].
  - destruct (f a') as [b | e]; [| eauto]. simpl.
    destruct (IH Ha) as [e ->]. eauto.
Qed.

(** A curve whose length is not that of the point axis stops the
    starting-point heuristic. *)
Lemma starting_points_mismatch (x y : list Q) :
  length x <> length y ->
  _get_fit_starting_points x y
  = Raise (match y with [] => ValueError | _ => IndexError end).
Proof.
  intros Hlen. unfold _get_fit_starting_points.
  destruct y as [| v y']; [reflexivity |].
  remember (v :: y') as y eqn:Hy.
  assert (Hmin : exists m, np_min y = Ok m) by (subst y; simpl; eauto).
  assert (Harg : exists i, np_argmin y = Ok i) by (subst y; simpl; eauto).
  destruct Hmin as [m ->]. destruct Harg as [i ->]. simpl.
  destruct (getitem x i) as [c | e] eqn:Hc; simpl.
  - unfold bool_index. rewrite decide_False; [done |].
    by rewrite length_fmap.
  - unfold getitem in Hc. destruct (x !! i); [discriminate |].
    by injection Hc as <-.
Qed.

Lemma rescale_mismatch `{Lmfit} (freq0 : Q) (n : nat) (zf : Z)
    (curve : list Q) :
  length curve <> n ->
  rescale freq0 (Z.of_nat n) (zf, curve)
  = Raise (match curve with [] => ValueError | _ => IndexError end).
Proof.
  intros Hlen. unfold rescale, fit_qvalue.
  rewrite starting_points_mismatch; [done |].
  rewrite length_arange, Nat2Z.id. done.
Qed.

(** C6, as amended.  A dataset in which two curves have different lengths
    is not checked before the fits: the constructor raises, but never
    [ValidationError].  The curves are fitted in order, the point count
    being that of the first curve; at the first curve of another length,
    all earlier fits having returned, the starting-point heuristic raises
    [IndexError], or [ValueError] if that curve is empty.  No mode picture
    is built. *)
Theorem init_mismatched_lengths `{Lmfit} `{Numpy} `{Runtime}
    (d : list (Z * list Q)) (freq : Q) (md : option (gmap string meta_value)) :
  (exists e1 e2, e1 ∈ d /\ e2 ∈ d /\ length e1.2 <> length e2.2) ->
  (exists e, __init__ (InputData d) freq md = Raise e
             /\ e <> ValidationError)
  /\ (forall d1 zf curve d2,
        d = d1 ++ (zf, curve) :: d2 ->
        let n := length (default [] (head d.*2)) in
        Forall (fun e => returns (rescale freq (Z.of_nat n) e)) d1 ->
        length curve <> n ->
        __init__ (InputData d) freq md
        = Raise (match curve with [] => ValueError | _ => IndexError end)).
Proof.
  intros (e1 & e2 & He1 & He2 & Hne). split.
  - destruct d as [| [zf0 first] d']; [by apply elem_of_nil in He1 |].
    assert (Hbad : exists e, e ∈ (zf0, first) :: d' /\ length e.2 <> length first).
    { destruct (decide (length e1.2 = length first)) as [Heq | Hneq];
        [exists e2; split; [done | congruence] | exists e1; by split]. }
    destruct Hbad as ([zf curve] & Hin & Hlen). simpl in Hlen.
    destruct (mapM_Raise_exists (rescale freq (Z.of_nat (length first)))
                _ _ Hin) as [e He].
    { intros [axis Haxis]. rewrite rescale_mismatch in Haxis by done.
      discriminate. }
    assert (Hinit : __init__ (InputData ((zf0, first) :: d')) freq md = Raise e).
    { unfold __init__, combine_data. rewrite He. reflexivity. }
    exists e. split; [done |].
    by destruct (raises_python_init _ _ _ _ Hinit).
  - intros d1 zf curve d2 -> n Hd1 Hlen.
    assert (Hn : exists zf0 first d',
               d1 ++ (zf, curve) :: d2 = (zf0, first) :: d' /\ n = length first).
    { subst n. destruct d1 as [| [zf0 first] d1']; simpl; eauto. }
    destruct Hn as (zf0 & first & d' & Hd & Hn).
    unfold __init__, combine_data. rewrite Hd, <- Hn, <- Hd.
    rewrite (mapM_Raise_first _ d1 d2 (zf, curve) _ Hd1 (rescale_mismatch _ _ _ _ Hlen)).
    reflexivity.
Qed.


Lemma init_mismatched_lengths_witness :
  let lmfit := Concrete.first_guess (Some (1 # 2)%Q) in
  let clock := Concrete.stopped_clock in
  let d := [(1%Z, inject_Z <$> [10; 10; 10; 0; 10; 10; 10; 10]%Z);
            (2%Z, inject_Z <$> [10; 10; 10; 0; 10; 10; 10; 10; 10]%Z)] in
  (exists e, __init__ (InputData d) (9385 # 1000) None = Raise e
             /\ e <> ValidationError)
  /\ __init__ (InputData d) (9385 # 1000) None = Raise IndexError.
Proof.
  intros lmfit clock d.
  destruct (init_mismatched_lengths d (9385 # 1000) None) as [Hraise Hfirst].
  - exists (1%Z, inject_Z <$> [10; 10; 10; 0; 10; 10; 10; 10]%Z),
      (2%Z, inject_Z <$> [10; 10; 10; 0; 10; 10; 10; 10; 10]%Z).
    split; [set_solver | split; [set_solver | simpl; lia]].
  - split; [exact Hraise |].
    refine (Hfirst [(1%Z, inject_Z <$> [10; 10; 10; 0; 10; 10; 10; 10]%Z)]
                   2%Z (inject_Z <$> [10; 10; 10; 0; 10; 10; 10; 10; 10]%Z) []
                   eq_refl _ _).
    + repeat constructor. eexists. vm_compute. reflexivity.
    + vm_compute. lia.
Defined.

(** C6, as stated, fails: with curves of eight and of nine samples the
    constructor raises [IndexError], after the fit of the first curve
    (if that fit raises, its exception is what the constructor raises). *)
Lemma init_mismatched_lengths_counterexample :
  let clock := Concrete.stopped_clock in
  let d := [(1%Z, inject_Z <$> [10; 10; 10; 0; 10; 10; 10; 10]%Z);
            (2%Z, inject_Z <$> [10; 10; 10; 0; 10; 10; 10; 10; 10]%Z)] in
  __init__ (H := Concrete.first_guess (Some (1 # 2)%Q))
           (InputData d) (9385 # 1000) None <> Raise ValidationError
  /\ __init__ (H := Concrete.first_guess (Some (1 # 2)%Q))
              (InputData d) (9385 # 1000) None = Raise IndexError
  /\ __init__ (H := Concrete.failing_fit)
              (InputData d) (9385 # 1000) None = Raise FitError.
Proof.
  intros clock d. split; [| split]; vm_compute; [discriminate | done | done].
Qed.

(** ** Reading a file *)

Lemma strip_prefix_Some (p s r : string) :
  strip_prefix p s = Some r <-> s = p +:+ r.
Proof.
  revert s. induction p as [| a p IH]; intros s; simpl.
  - split; [by intros [= ->] | by intros ->].
  - destruct s as [| b s]; [split; discriminate |].
    destruct (Ascii.eqb_spec a b) as [-> | Hab].
    + rewrite IH. split; [by intros -> | by intros [= ->]].
    + split; [discriminate | intros [= -> _]; done].
Qed.

Lemma strip_prefix_append (p r : string) : strip_prefix p (p +:+ r) = Some r.
Proof. by apply strip_prefix_Some. Qed.

Lemma span_append (p : ascii -> bool) (s : string) :
  s = (span p s).1 +:+ (span p s).2.
Proof.
  induction s as [| c s IH]; simpl; [done |].
  destruct (p c); [| done]. destruct (span p s) as [u v]. simpl in *.
  by subst s.
Qed.

Lemma span_forallb (p : ascii -> bool) (s : string) :
  string_forallb p (span p s).1 = true.
Proof.
  induction s as [| c s IH]; simpl; [done |].
  destruct (p c) eqn:Hc; [| done]. destruct (span p s) as [u v]. simpl in *.
  by rewrite Hc.
Qed.

Lemma span_rest (p : ascii -> bool) (s : string) :
  (span p s).2 = EmptyString
  \/ exists c r, (span p s).2 = String c r /\ p c = false.
Proof.
  induction s as [| c s IH]; simpl; [by left |].
  destruct (p c) eqn:Hc; [| right; eauto].
  destruct (span p s) as [u v]. simpl in *. done.
Qed.

(** A split into a run of [p]-characters and a rest that does not go on
    with one is the split that [span] finds. *)
Lemma span_unique (p : ascii -> bool) (u v : string) :
  string_forallb p u = true ->
  (v = EmptyString \/ exists c r, v = String c r /\ p c = false) ->
  span p (u +:+ v) = (u, v).
Proof.
  intros Hu Hv. induction u as [| c u IH]; simpl in *.
  - destruct Hv as [-> | (c & r & -> & Hc)]; simpl; [done | by rewrite Hc].
  - apply andb_true_iff in Hu as [Hc Hu]. rewrite Hc, (IH Hu). done.
Qed.

(** [match_metadata] finds the match of the pattern, if there is one. *)
Lemma match_metadata_spec (line key value : string) :
  match_metadata line = Some (key, value) <-> matches_pattern line key value.
Proof.
  unfold match_metadata, matches_pattern. split.
  - intros Hm. apply bind_Some in Hm as (rest0 & Hline & Hm).
    apply strip_prefix_Some in Hline as ->.
    pose proof (span_append is_word rest0) as Happ.
    pose proof (span_forallb is_word rest0) as Hkey.
    destruct (span is_word rest0) as [k rest1]. simpl in Happ, Hkey.
    apply bind_Some in Hm as (rest2 & Hrest1 & [= <- <-]).
    apply strip_prefix_Some in Hrest1 as ->.
    pose proof (span_append (fun c => negb (Ascii.eqb c newline)) rest2) as Hv.
    pose proof (span_forallb (fun c => negb (Ascii.eqb c newline)) rest2) as Hval.
    pose proof (span_rest (fun c => negb (Ascii.eqb c newline)) rest2) as Hrest.
    destruct (span _ rest2) as [v rest3]. simpl in *.
    exists rest3. rewrite <- Hv. repeat split; [by rewrite Happ | done | done |].
    destruct Hrest as [-> | (c & r & -> & Hc)]; [by left | right].
    apply negb_false_iff, Ascii.eqb_eq in Hc. subst c. eauto.
  - intros (rest & -> & Hkey & Hval & Hrest).
    rewrite strip_prefix_append. simpl.
    rewrite (span_unique is_word key) by (done || right; eauto).
    simpl.
    rewrite (span_unique (fun c => negb (Ascii.eqb c newline)) value); [done.. |].
    destruct Hrest as [-> | [r ->]]; [by left | right; eauto].
Qed.

Lemma match_metadata_None (line : string) :
  match_metadata line = None <-> forall key value, ~ matches_pattern line key value.
Proof.
  split.
  - intros Hnone key value Hm. apply match_metadata_spec in Hm. congruence.
  - intros Hno. destruct (match_metadata line) as [[key value] |] eqn:Hm; [| done].
    apply match_metadata_spec in Hm. by destruct (Hno key value).
Qed.

Lemma read_metadata_app (m : gmap string meta_value) (l1 l2 : list string) :
  read_metadata m (l1 ++ l2) = read_metadata (read_metadata m l1) l2.
Proof. unfold read_metadata. apply foldl_app. Qed.

Lemma read_metadata_skip (m : gmap string meta_value) (l1 l2 : list string)
    (line : string) :
  match_metadata line = None ->
  read_metadata m (l1 ++ line :: l2) = read_metadata m (l1 ++ l2).
Proof.
  intros Hline. rewrite !read_metadata_app. unfold read_metadata at 2.
  simpl. by rewrite Hline.
Qed.

Lemma last_entry_nil (key s : string) : ~ last_entry [] key s.
Proof. intros (l1 & line & l2 & Hl & _). by destruct l1. Qed.

Lemma last_entry_snoc (lines : list string) (line key s : string) :
  last_entry (lines ++ [line]) key s <->
  matches_pattern line key s
  \/ (~ sets_key key line /\ last_entry lines key s).
Proof.
  split.
  - intros (l1 & line' & l2 & Hl & Hm & Hl2).
    destruct l2 as [| l l2 _] using rev_ind.
    + apply app_inj_tail in Hl as [_ ->]. by left.
    + rewrite app_comm_cons, app_assoc in Hl.
      apply app_inj_tail in Hl as [-> ->].
      apply Forall_app in Hl2 as [Hl2 Hl]. apply Forall_cons_1 in Hl as [Hl _].
      right. split; [done |]. by exists l1, line', l2.
  - intros [Hm | (Hline & l1 & line' & l2 & -> & Hm & Hl2)].
    + exists lines, line, []. by repeat split.
    + exists l1, line', (l2 ++ [line]). rewrite <- app_assoc.
      repeat split; [done |]. apply Forall_app. split; [done |].
      by constructor.
Qed.

(** The entry of a key after the loop of [load]: the value of the last
    matching line with that key; the entry the dict held before, if no
    line has that key. *)
Lemma lookup_read_metadata (m : gmap string meta_value) (lines : list string)
    (key : string) (v : meta_value) :
  read_metadata m lines !! key = Some v <->
  (exists s, last_entry lines key s /\ v = MStr s)
  \/ (Forall (fun l => ~ sets_key key l) lines /\ m !! key = Some v).
Proof.
  induction lines as [| line lines IH] using rev_ind.
  - simpl. split; [by right |].
    intros [(s & Hs & _) | [_ Hm]]; [by apply last_entry_nil in Hs | done].
  - rewrite read_metadata_app. unfold read_metadata at 1. simpl.
    setoid_rewrite last_entry_snoc. rewrite Forall_app, Forall_singleton.
    destruct (match_metadata line) as [[k s] |] eqn:Hline.
    + destruct (decide (k = key)) as [-> | Hk].
      * apply match_metadata_spec in Hline. rewrite lookup_insert_eq. split.
        -- intros [= <-]. left. exists s. by split; [left |].
        -- intros [(s' & [Hm | [Hno _]] & ->) | [[_ Hno] _]].
           ++ apply match_metadata_spec in Hline, Hm. congruence.
           ++ destruct Hno. by exists s.
           ++ destruct Hno. by exists s.
      * assert (Hno : ~ sets_key key line).
        { intros [s' Hs']. apply match_metadata_spec in Hs'. congruence. }
        rewrite lookup_insert_ne by done. rewrite IH. split.
        -- intros [(s' & Hs' & ->) | [Hall Hm]]; [left | by right].
           exists s'. split; [by right | done].
        -- intros [(s' & [Hm | [_ Hs']] & ->) | [[Hall _] Hm]];
             [destruct Hno; by exists s' | left; by exists s' | by right].
    + assert (Hno : ~ sets_key key line).
      { intros [s' Hs']. apply match_metadata_spec in Hs'. congruence. }
      rewrite IH. split.
      * intros [(s' & Hs' & ->) | [Hall Hm]]; [left | by right].
        exists s'. split; [by right | done].
      * intros [(s' & [Hm | [_ Hs']] & ->) | [[Hall _] Hm]];
          [destruct Hno; by exists s' | left; by exists s' | by right].
Qed.

Lemma matches_pattern_hash (line key value : string) :
  matches_pattern line key value -> startswith_hash line = true.
Proof. by intros (rest & -> & _). Qed.

Lemma metadata_lines_take (lines : list string) :
  1 <= header_length lines ->
  metadata_lines lines = take (header_length lines - 1) lines.
Proof.
  intros Hh. unfold metadata_lines.
  replace (Z.of_nat (header_length lines) - 1)%Z
    with (Z.of_nat (header_length lines - 1)) by lia.
  apply py_slice_prefix.
Qed.

Lemma header_length_pos (lines : list string) (line : string) :
  line ∈ lines -> startswith_hash line = true -> 1 <= header_length lines.
Proof.
  intros Hin Hline. unfold header_length.
  assert (Hf : line ∈ filter (fun l => startswith_hash l = true) lines)
    by (by apply list_elem_of_filter).
  destruct (filter _ lines); [by apply elem_of_nil in Hf | simpl; lia].
Qed.

Lemma metadata_lines_sublist (lines : list string) (line : string) :
  line ∈ metadata_lines lines -> line ∈ lines.
Proof.
  unfold metadata_lines, py_slice. intros Hin.
  apply elem_of_take in Hin as (i & Hi & _).
  rewrite lookup_drop in Hi. by eapply list_elem_of_lookup_2.
Qed.

Lemma last_entry_elem_of (lines : list string) (key s : string) :
  last_entry lines key s ->
  exists line, line ∈ lines /\ matches_pattern line key s.
Proof.
  intros (l1 & line & l2 & -> & Hm & _). exists line. split; [| done].
  apply elem_of_app. right. apply list_elem_of_here.
Qed.

Lemma py_float_raises (s : string) (e : exn) :
  py_float s = Raise e -> e = ValueError.
Proof.
  unfold py_float. destruct (span is_digit s) as [int_part rest].
  destruct (_ && _); congruence.
Qed.

Section Load.
Context `{Lmfit} `{Numpy}.

(** What a successful [load] has gone through. *)
Lemma load_Ok (md0 : gmap string meta_value) (file : string)
    (mp : ModePicture) :
  load md0 file = Ok mp ->
  exists m s,
    np_loadtxt file = Ok m
    /\ column m 0 = Ok (x_data_mhz mp)
    /\ column m 1 = Ok (y_data mp)
    /\ x_data_points mp = (fun v => 2 / milli * v)%Q <$> x_data_mhz mp
    /\ metadata mp = read_metadata ∅ (metadata_lines (readlines file))
    /\ metadata mp !! "Frequency" = Some (MStr s)
    /\ py_float (string_filter (fun c => in_string c "0123456789.") s)
       = Ok (freq0 mp)
    /\ fit_qvalue (freq0 mp) (x_data_points mp) (y_data mp) 1
       = Ok (qvalue mp, fit_result mp)
    /\ get_qvalue_stderr (freq0 mp) (fit_result mp) = Ok (qvalue_stderr mp).
Proof.
  unfold load, dict_clear. intros Hload.
  apply bind_Ok in Hload as (m & Hm & Hload).
  apply bind_Ok in Hload as (x & Hx & Hload).
  apply bind_Ok in Hload as (y & Hy & Hload).
  apply bind_Ok in Hload as (s & Hs & Hload).
  apply bind_Ok in Hload as (f0 & Hf0 & Hload).
  apply bind_Ok in Hload as ([q fr] & Hfit & Hload).
  apply bind_Ok in Hload as (qe & Hqe & [= <-]). simpl.
  exists m, s. repeat split; try done.
  destruct (read_metadata _ _ !! "Frequency") as [[s' | |] |];
    simplify_eq; done.
Qed.

(** C7, as amended.  [freq0] is the number read from the characters of
    the Frequency entry that are digits or dots, in their order.  When
    the table of the file loads, a header without a Frequency entry
    makes [load] raise [KeyError], and an entry whose digits and dots
    are not a numeral makes it raise [ValueError]; [load] never raises
    [ParseError]. *)
Theorem load_frequency (md0 : gmap string meta_value) (file : string) :
  let md := read_metadata ∅ (metadata_lines (readlines file)) in
  let digits s := string_filter (fun c => in_string c "0123456789.") s in
  (forall mp, load md0 file = Ok mp ->
     exists s, md !! "Frequency" = Some (MStr s)
               /\ py_float (digits s) = Ok (freq0 mp))
  /\ (forall m x y,
        np_loadtxt file = Ok m -> column m 0 = Ok x -> column m 1 = Ok y ->
        (md !! "Frequency" = None -> load md0 file = Raise KeyError)
        /\ (forall s, md !! "Frequency" = Some (MStr s) ->
              ~ returns (py_float (digits s)) ->
              load md0 file = Raise ValueError))
  /\ load md0 file <> Raise ParseError.
Proof.
  intros md digits. split; [| split].
  - intros mp Hload. apply load_Ok in Hload as (m & s & Hload).
    destruct Hload as (_ & _ & _ & _ & Hmd & Hs & Hf & _).
    exists s. subst md. by rewrite <- Hmd.
  - intros m x y Hm Hx Hy. unfold load, dict_clear.
    rewrite Hm. simpl. rewrite Hx. simpl. rewrite Hy. simpl. fold md.
    split.
    + by intros ->.
    + intros s -> Hs. simpl.
      destruct (py_float (string_filter _ s)) as [f | e] eqn:Hf.
      * destruct Hs. by exists f.
      * apply py_float_raises in Hf. by subst e.
  - intros Hload. by destruct (raises_python_load _ _ _ Hload).
Qed.

(** The metadata that the object held before plays no part. *)
Lemma load_clear (md0 md1 : gmap string meta_value) (file : string) :
  load md0 file = load md1 file.
Proof. reflexivity. Qed.

(** C10, as amended.  After [load] returns, the metadata holds, for each
    key, the value of the last matching line with that key among the
    first [h - 1] lines of the file, [h] being the number of lines
    that start with a hash sign, and nothing else: what the
    constructor was given is gone, and a line that does not match
    could as well be absent. *)
Theorem load_metadata (md0 : gmap string meta_value) (file : string)
    (mp : ModePicture) :
  load md0 file = Ok mp ->
  let lines := metadata_lines (readlines file) in
  lines = take (header_length (readlines file) - 1) (readlines file)
  /\ (forall md1, load md1 file = Ok mp)
  /\ (forall key v,
        metadata mp !! key = Some v <->
        exists s, last_entry lines key s /\ v = MStr s)
  /\ (forall l1 line l2,
        lines = l1 ++ line :: l2 ->
        (forall key value, ~ matches_pattern line key value) ->
        metadata mp = read_metadata ∅ (l1 ++ l2)).
Proof.
  intros Hload lines.
  assert (Hclear : forall md1, load md1 file = Ok mp)
    by (intros md1; by rewrite (load_clear md1 md0)).
  apply load_Ok in Hload as (m & s & Hload).
  destruct Hload as (_ & _ & _ & _ & Hmd & Hfreq & _). fold lines in Hmd.
  split; [| split; [done | split]].
  - apply metadata_lines_take.
    rewrite Hmd in Hfreq. apply lookup_read_metadata in Hfreq.
    destruct Hfreq as [(s' & Hlast & _) | [_ [=]]].
    apply last_entry_elem_of in Hlast as (line & Hin & Hm).
    apply (header_length_pos _ line).
    + by apply metadata_lines_sublist.
    + by eapply matches_pattern_hash.
  - intros key v. rewrite Hmd, lookup_read_metadata.
    rewrite lookup_empty. split; [| by left].
    by intros [Hs | [_ [=]]].
  - intros l1 line l2 Hl Hline. rewrite Hmd, Hl.
    by apply read_metadata_skip, match_metadata_None.
Qed.
End Load.

Lemma load_frequency_witness :
  let lmfit := Concrete.first_guess (Some (1 # 2)%Q) in
  (exists mp s,
      load ∅ Concrete.saved_file = Ok mp
      /\ metadata mp !! "Frequency" = Some (MStr s)
      /\ string_filter (fun c => in_string c "0123456789.") s = "9.385"
      /\ py_float "9.385" = Ok (freq0 mp))
  /\ load ∅ Concrete.file_without_frequency = Raise KeyError
  /\ load ∅ Concrete.file_with_unknown_frequency = Raise ValueError.
Proof.
  intros lmfit.
  assert (Hmp : exists mp, load ∅ Concrete.saved_file = Ok mp)
    by (eexists; vm_compute; reflexivity).
  destruct Hmp as [mp Hmp]. split; [| split].
  - destruct (load_frequency ∅ Concrete.saved_file) as (Hf & _ & _).
    destruct (Hf mp Hmp) as (s & Hs & Hfloat).
    assert (s = "9.385 GHz") as -> by (vm_compute in Hs; congruence).
    exists mp, "9.385 GHz". split; [exact Hmp |].
    split; [| split; [vm_compute; reflexivity | exact Hfloat]].
    apply load_Ok in Hmp as (m & s' & Hmp).
    destruct Hmp as (_ & _ & _ & _ & -> & _). exact Hs.
  - destruct (load_frequency ∅ Concrete.file_without_frequency) as (_ & Hf & _).
    eapply Hf; vm_compute; reflexivity.
  - destruct (load_frequency ∅ Concrete.file_with_unknown_frequency)
      as (_ & Hf & _).
    eapply Hf; [vm_compute; reflexivity .. |].
    intros [f Hfloat]. vm_compute in Hfloat. discriminate.
Defined.

(** C7, as stated, fails: no [ParseError] is raised for a header without
    a Frequency entry, nor for an entry without a number. *)
Lemma load_frequency_counterexample :
  let lmfit := Concrete.first_guess (Some (1 # 2)%Q) in
  load ∅ Concrete.file_without_frequency = Raise KeyError
  /\ load ∅ Concrete.file_without_frequency <> Raise ParseError
  /\ load ∅ Concrete.file_with_unknown_frequency = Raise ValueError
  /\ load ∅ Concrete.file_with_unknown_frequency <> Raise ParseError.
Proof. intros lmfit. repeat split; vm_compute; done. Qed.

Lemma load_metadata_witness :
  let lmfit := Concrete.first_guess (Some (1 # 2)%Q) in
  let md0 : gmap string meta_value := {[ "Operator" := MStr "sam" ]} in
  exists mp,
    load md0 Concrete.saved_file16 = Ok mp
    /\ metadata mp !! "Operator" = None
    /\ forall key v,
         metadata mp !! key = Some v <->
         exists s,
           last_entry (metadata_lines (readlines Concrete.saved_file16)) key s
           /\ v = MStr s.
Proof.
  intros lmfit md0.
  assert (Hmp : exists mp, load md0 Concrete.saved_file16 = Ok mp)
    by (eexists; vm_compute; reflexivity).
  destruct Hmp as [mp Hmp]. exists mp. split; [exact Hmp |].
  destruct (load_metadata md0 Concrete.saved_file16 mp Hmp) as (_ & _ & Hkeys & _).
  split; [| exact Hkeys].
  apply load_Ok in Hmp as (m & s & Hmp).
  destruct Hmp as (_ & _ & _ & _ & -> & _). vm_compute. reflexivity.
Defined.

(** C10, as stated, fails: the last line that starts with a hash sign is
    never read, even if it is a metadata line.  The file has the sixteen
    rows of a curve with a dip.  Whatever the fit and the table reader
    are, a mode picture loaded from it has no QValue entry, although
    the line of that entry is a header line that matches the pattern;
    and with the fit that stops at its first guess the file is loaded. *)
Lemma load_metadata_counterexample :
  let file := Concrete.file16_without_titles in
  let line := Concrete.tabbed "# QValue:" "18770.0" +:+ String newline EmptyString in
  (readlines file !! 1 = Some line
   /\ startswith_hash line = true
   /\ matches_pattern line "QValue" "18770.0")
  /\ (forall (lmfit : Lmfit) (numpy : Numpy) md0 mp,
        load md0 file = Ok mp -> metadata mp !! "QValue" = None)
  /\ exists mp,
       load (H := Concrete.first_guess (Some (1 # 2)%Q)) ∅ file = Ok mp.
Proof.
  intros file line. split; [| split].
  - split; [vm_compute; reflexivity |]. split; [reflexivity |].
    apply match_metadata_spec. vm_compute. reflexivity.
  - intros lmfit numpy md0 mp Hmp.
    apply load_Ok in Hmp as (m & s & Hmp).
    destruct Hmp as (_ & _ & _ & _ & -> & _). vm_compute. reflexivity.
  - eexists. vm_compute. reflexivity.
Qed.

(** * Further properties of the program *)

(** ** The Lorentzian *)

Lemma math_pi_pos : (0 < math_pi)%Q.
Proof. reflexivity. Qed.

Lemma Qsquare_nonneg (d : Q) : (0 <= d ^ 2)%Q.
Proof. simpl. nra. Qed.

Lemma lorentz_denominator_pos (d w : Q) :
  ~ (w == 0)%Q -> (0 < 4 * d ^ 2 + w ^ 2)%Q.
Proof.
  intros Hw. simpl.
  assert (0 <= d * d)%Q by nra.
  assert (0 < w * w)%Q by (destruct (Q_dec w 0) as [[? | ?] | ?]; [nra | nra | done]).
  lra.
Qed.

(** With a width other than zero the denominator is positive and the
    division goes through. *)
Lemma lorentz_peak_Ok (x x0 w a : Q) :
  ~ (w == 0)%Q ->
  lorentz_peak x x0 w a
  = Ok (a * (2 / math_pi * w) / (4 * (x - x0) ^ 2 + w ^ 2))%Q.
Proof.
  intros Hw. unfold lorentz_peak. apply py_div_Ok.
  pose proof (lorentz_denominator_pos (x - x0) w Hw). lra.
Qed.

(** X1. The parameter [w] of [lorentz_peak] is the full width at half
    maximum, as its docstring says: for a width other than zero the
    value at the center [x0] is [2 a / (pi w)], and the values at
    [x0 - w / 2] and at [x0 + w / 2] are half of it. *)
Theorem lorentz_peak_half_maximum (x0 w a : Q) :
  ~ (w == 0)%Q ->
  exists peak left right,
    lorentz_peak x0 x0 w a = Ok peak
    /\ lorentz_peak (x0 - w / 2) x0 w a = Ok left
    /\ lorentz_peak (x0 + w / 2) x0 w a = Ok right
    /\ (peak == 2 * a / (math_pi * w))%Q
    /\ (left == peak / 2)%Q
    /\ (right == peak / 2)%Q.
Proof.
  intros Hw. do 3 eexists.
  rewrite !lorentz_peak_Ok by done.
  split; [reflexivity |]. split; [reflexivity |]. split; [reflexivity |].
  pose proof math_pi_pos as Hpi.
  assert (Hpi' : ~ (math_pi == 0)%Q) by lra.
  split; [| split]; field; try done.
  all: try (split; done). all: try (simpl; nra).
Qed.

Lemma lorentz_peak_half_maximum_witness :
  exists peak left right,
    lorentz_peak 8 8 2 3 = Ok peak
    /\ lorentz_peak (8 - 2 / 2) 8 2 3 = Ok left
    /\ lorentz_peak (8 + 2 / 2) 8 2 3 = Ok right
    /\ (peak == 2 * 3 / (math_pi * 2))%Q
    /\ (left == peak / 2)%Q
    /\ (right == peak / 2)%Q.
Proof. apply (lorentz_peak_half_maximum 8 2 3). intros Hw. discriminate Hw. Defined.

(** X2. For a positive width and a non-negative area, [lorentz_peak]
    returns at every point a value between zero and its value at the
    center, and the same value at the mirror image [2 x0 - x] of [x]. *)
Theorem lorentz_peak_bounded (x x0 w a : Q) :
  (0 < w)%Q -> (0 <= a)%Q ->
  exists v peak mirror,
    lorentz_peak x x0 w a = Ok v
    /\ lorentz_peak x0 x0 w a = Ok peak
    /\ lorentz_peak (2 * x0 - x) x0 w a = Ok mirror
    /\ (0 <= v)%Q /\ (v <= peak)%Q /\ (mirror == v)%Q.
Proof.
  intros Hw Ha. assert (Hw0 : ~ (w == 0)%Q) by lra.
  do 3 eexists. rewrite !lorentz_peak_Ok by done.
  split; [reflexivity |]. split; [reflexivity |]. split; [reflexivity |].
  pose proof math_pi_pos as Hpi.
  assert (Hpi' : ~ (math_pi == 0)%Q) by lra.
  pose proof (lorentz_denominator_pos (x - x0) w Hw0) as Hd.
  pose proof (lorentz_denominator_pos (x0 - x0) w Hw0) as Hd0.
  assert (Hn : (0 <= a * (2 / math_pi * w))%Q).
  { apply Qmult_le_0_compat; [done |].
    apply Qmult_le_0_compat; [| lra].
    apply Qle_shift_div_l; lra. }
  split; [| split].
  - apply Qle_shift_div_l; [done | lra].
  - apply Qle_shift_div_r; [done |].
    set (n := (a * (2 / math_pi * w))%Q) in *.
    assert (Heq : (n / (4 * (x0 - x0) ^ 2 + w ^ 2) * (4 * (x - x0) ^ 2 + w ^ 2)
                   == n + n * (4 * (x - x0) ^ 2) / (w ^ 2))%Q).
    { field. simpl. split; [nra |]. simpl in Hd0. lra. }
    rewrite Heq.
    assert (0 <= n * (4 * (x - x0) ^ 2) / w ^ 2)%Q; [| lra].
    apply Qle_shift_div_l; [simpl; nra |].
    rewrite Qmult_0_l. apply Qmult_le_0_compat; [done |].
    pose proof (Qsquare_nonneg (x - x0)). lra.
  - field. simpl in *. split; [done |].
    assert ((x - x0) * (x - x0) == (2 * x0 - x - x0) * (2 * x0 - x - x0))%Q by ring.
    lra.
Qed.

Lemma lorentz_peak_bounded_witness :
  exists v peak mirror,
    lorentz_peak 5 8 2 3 = Ok v
    /\ lorentz_peak 8 8 2 3 = Ok peak
    /\ lorentz_peak (2 * 8 - 5) 8 2 3 = Ok mirror
    /\ (0 <= v)%Q /\ (v <= peak)%Q /\ (mirror == v)%Q.
Proof. apply (lorentz_peak_bounded 5 8 2 3); [reflexivity | discriminate]. Defined.

(** ** The frequency axis *)

Lemma points_to_mhz_Ok (n zf : Z) (x0 : Q) :
  zf <> 0%Z ->
  _points_to_mhz n zf x0
  = Ok ((fun p => milli / inject_Z (2 * zf) * (p - x0))%Q <$> arange n).
Proof.
  intros Hzf. unfold _points_to_mhz.
  rewrite py_div_Ok by (apply inject_Z_nonzero; lia). reflexivity.
Qed.

Lemma points_to_mhz_lookup (n zf : Z) (x0 : Q) (i : nat) (u : Q) :
  ((fun p => milli / inject_Z (2 * zf) * (p - x0))%Q <$> arange n) !! i = Some u ->
  u = (milli / inject_Z (2 * zf) * (inject_Z (Z.of_nat i) - x0))%Q.
Proof.
  intros Hu. rewrite list_lookup_fmap in Hu.
  destruct (arange n !! i) as [p |] eqn:Hp; [| done].
  assert (Hi : (Z.of_nat i < n)%Z).
  { apply lookup_lt_Some in Hp. rewrite length_arange in Hp. lia. }
  rewrite lookup_arange in Hp by done. by simplify_eq/=.
Qed.

Lemma points_to_mhz_step_pos (zf : Z) :
  (1 <= zf)%Z -> (0 < milli / inject_Z (2 * zf))%Q.
Proof.
  intros Hzf. apply Qlt_shift_div_l; [| rewrite Qmult_0_l; reflexivity].
  change 0%Q with (inject_Z 0). rewrite <- Zlt_Qlt. lia.
Qed.

(** X3. For a zoom factor [zf >= 1] the axis of [_points_to_mhz] is
    evenly spaced and strictly ascending: consecutive values differ by
    [1 / (2000 zf)], a value at a lower index is smaller, and the value
    at index [i] is zero exactly when [i] is the center [x0]. *)
Theorem points_to_mhz_ascending (n_points zf : Z) (x0 : Q) :
  (1 <= zf)%Z ->
  exists axis,
    _points_to_mhz n_points zf x0 = Ok axis
    /\ (forall i u v, axis !! i = Some u -> axis !! S i = Some v ->
          (v - u == 1 / inject_Z (2000 * zf))%Q)
    /\ (forall i j u v, axis !! i = Some u -> axis !! j = Some v ->
          i < j -> (u < v)%Q)
    /\ (forall i u, axis !! i = Some u ->
          (u == 0 <-> inject_Z (Z.of_nat i) == x0)%Q).
Proof.
  intros Hzf. rewrite points_to_mhz_Ok by lia. eexists. split; [reflexivity |].
  assert (Hz : ~ (inject_Z zf == 0)%Q) by (apply inject_Z_nonzero; lia).
  pose proof (points_to_mhz_step_pos zf Hzf) as Hs.
  split; [| split].
  - intros i u v Hu Hv. apply points_to_mhz_lookup in Hu, Hv. subst.
    rewrite Nat2Z.inj_succ. unfold Z.succ. rewrite !inject_Z_mult, inject_Z_plus.
    unfold milli. field. done.
  - intros i j u v Hu Hv Hij. apply points_to_mhz_lookup in Hu, Hv. subst.
    assert (inject_Z (Z.of_nat i) < inject_Z (Z.of_nat j))%Q
      by (rewrite <- Zlt_Qlt; lia).
    nra.
  - intros i u Hu. apply points_to_mhz_lookup in Hu. subst. split; intros Heq.
    + destruct (Qmult_integral _ _ Heq); lra.
    + rewrite Heq. ring.
Qed.

Lemma points_to_mhz_ascending_witness :
  exists axis,
    _points_to_mhz 4 2 (3 # 2) = Ok axis
    /\ (forall i u v, axis !! i = Some u -> axis !! S i = Some v ->
          (v - u == 1 / inject_Z (2000 * 2))%Q)
    /\ (forall i j u v, axis !! i = Some u -> axis !! j = Some v ->
          i < j -> (u < v)%Q)
    /\ (forall i u, axis !! i = Some u ->
          (u == 0 <-> inject_Z (Z.of_nat i) == 3 # 2)%Q).
Proof. apply (points_to_mhz_ascending 4 2 (3 # 2)). lia. Defined.

(** X4. The conversion can be undone: for a zoom factor other than zero
    the axis has [n_points] values (none for [n_points <= 0]), and
    [2 / 1e-3 * v * zf + x0] gives back the index of every value [v]. *)
Theorem points_to_mhz_inverse (n_points zf : Z) (x0 : Q) (axis : list Q) :
  zf <> 0%Z ->
  _points_to_mhz n_points zf x0 = Ok axis ->
  length axis = Z.to_nat n_points
  /\ forall i v, axis !! i = Some v ->
       (2 / milli * v * inject_Z zf + x0 == inject_Z (Z.of_nat i))%Q.
Proof.
  intros Hzf. rewrite points_to_mhz_Ok by done. intros [= <-].
  split; [by rewrite length_fmap, length_arange |].
  intros i v Hv. apply points_to_mhz_lookup in Hv. subst.
  rewrite inject_Z_mult. unfold milli. field.
  by apply inject_Z_nonzero.
Qed.

Lemma points_to_mhz_inverse_witness :
  exists axis,
    _points_to_mhz 4 2 (3 # 2) = Ok axis
    /\ length axis = Z.to_nat 4
    /\ forall i v, axis !! i = Some v ->
         (2 / milli * v * inject_Z 2 + (3 # 2) == inject_Z (Z.of_nat i))%Q.
Proof.
  eexists. split; [vm_compute; reflexivity |].
  apply (points_to_mhz_inverse 4 2 (3 # 2)); [lia | vm_compute; reflexivity].
Defined.

(** ** The starting points *)

Lemma bool_index_all_false {A} (x : list A) (y : list Q) (t : option Q) :
  length x = length y ->
  Forall (fun v => lt_nan v t = false) y ->
  bool_index x ((fun v => lt_nan v t) <$> y) = Ok [].
Proof.
  intros Hlen Hall. unfold bool_index.
  rewrite decide_True by (by rewrite length_fmap).
  rewrite filter_none; [done |].
  apply Forall_forall. intros [a b] Hin. simpl.
  apply elem_of_zip_r, list_elem_of_fmap in Hin as (v & -> & Hv).
  rewrite Forall_forall in Hall. rewrite (Hall v Hv). done.
Qed.

(** When no sample lies below the half-height threshold the selection
    [x_data[peak_index]] is empty and [np.max] raises. *)
Lemma starting_points_no_dip (x y : list Q) :
  length x = length y ->
  (forall ymin, np_min y = Ok ymin ->
     let k := Z.of_nat (length x / 4) in
     let baseline := np_mean2 (np_mean (py_slice 0 k y))
                              (np_mean (py_slice (- k) (-1) y)) in
     let threshold := (fun h => h / 2 + ymin)%Q <$>
                        ((fun b => b - ymin)%Q <$> baseline) in
     Forall (fun v => lt_nan v threshold = false) y) ->
  _get_fit_starting_points x y = Raise ValueError.
Proof.
  intros Hlen Hall. unfold _get_fit_starting_points.
  destruct (np_argmin y) as [i | e] eqn:Hi.
  2: { destruct y; [by simplify_eq/= | done]. }
  simpl. destruct (np_argmin_spec _ _ Hi) as (m & Hm & _).
  destruct (x !! i) as [c |] eqn:Hc.
  2: { apply lookup_ge_None in Hc. apply lookup_lt_Some in Hm. lia. }
  unfold getitem at 1. rewrite Hc. simpl.
  destruct (np_min y) as [ymin | e] eqn:Hmin.
  2: { destruct y; done. }
  simpl. specialize (Hall ymin eq_refl). simpl in Hall.
  rewrite (bool_index_all_false x y _ Hlen Hall). reflexivity.
Qed.

(** With fewer than eight samples a quarter of the curve is at most one
    sample, and one of the two means of the baseline is [nan]. *)
Lemma starting_points_short (x y : list Q) :
  length x = length y -> length x < 8 ->
  _get_fit_starting_points x y = Raise ValueError.
Proof.
  intros Hlen Hshort. apply starting_points_no_dip; [done |].
  intros ymin _ k baseline threshold.
  assert (Hb : baseline = None).
  { clear threshold. subst baseline k.
    assert (Hk : length x / 4 = 0 \/ length x / 4 = 1).
    { assert (length x / 4 < 2) by (apply Nat.Div0.div_lt_upper_bound; lia). lia. }
    destruct Hk as [-> | ->].
    - rewrite py_slice_prefix. simpl. done.
    - rewrite py_slice_tail by lia.
      replace (length y - 1 - (length y - 1)) with 0 by lia.
      rewrite take_0. unfold np_mean2.
      destruct (np_mean (py_slice 0 _ y)); reflexivity. }
  unfold threshold. rewrite Hb. simpl.
  by apply Forall_forall.
Qed.

(** X5. The starting points that the heuristic returns are plausible:
    the center is the x-value at the first sample at which the curve
    takes its minimum, the width is at least 1, and the area is positive
    (the baseline lies above the minimum). *)
Theorem starting_points_plausible (x y : list Q) (c w a : Q) :
  _get_fit_starting_points x y = Ok (c, w, a) ->
  (exists i m, x !! i = Some c /\ y !! i = Some m
     /\ Forall (fun v => m <= v)%Q y
     /\ forall j v, j < i -> y !! j = Some v -> (m < v)%Q)
  /\ (1 <= w)%Q /\ (0 < a)%Q.
Proof.
  intros Hsp. destruct (starting_points_returned _ _ _ _ _ Hsp)
    as (i & ymin & b1 & b2 & hi & lo & Hi & Hc & Hmin & _ & _ & Hhi & _ & _ & Hw & Ha).
  split.
  { destruct (np_argmin_spec _ _ Hi) as (m & Hm & Hall & Hfirst). eauto 10. }
  split; [done |].
  apply np_max_spec in Hhi as [Hin _].
  apply list_elem_of_fmap in Hin as ([u v] & _ & Hin).
  apply list_elem_of_filter in Hin as [Hlt Hin]. simpl in Hlt.
  apply elem_of_zip_r in Hin. simpl in Hin.
  apply np_min_spec in Hmin as [_ Hall].
  rewrite Forall_forall in Hall. specialize (Hall v Hin).
  set (h := ((b1 + b2) / 2 - ymin)%Q) in *. clearbody h.
  assert (Hh : (0 < h)%Q).
  { assert (h / 2 == h * (1 # 2))%Q by field. lra. }
  rewrite Ha. pose proof math_pi_pos.
  assert (0 < h * w)%Q by nra.
  assert (0 < h * w * math_pi)%Q by (apply Qmult_lt_0_compat; done).
  apply Qlt_shift_div_l; lra.
Qed.

Lemma starting_points_plausible_witness :
  let x := arange 16 in
  let y := Concrete.curve in
  exists c w a,
    _get_fit_starting_points x y = Ok (c, w, a)
    /\ (exists i m, x !! i = Some c /\ y !! i = Some m
          /\ Forall (fun v => m <= v)%Q y
          /\ forall j v, j < i -> y !! j = Some v -> (m < v)%Q)
    /\ (1 <= w)%Q /\ (0 < a)%Q.
Proof.
  intros x y. eexists _, _, _. split; [vm_compute; reflexivity |].
  apply (starting_points_plausible x y). vm_compute. reflexivity.
Defined.

(** ** The Q-value of a fit that returned *)

(** What a successful [fit_qvalue] has gone through. *)
Lemma fit_qvalue_inv `{Lmfit} (freq0 : Q) (x y : list Q) (z : Z) (q : Q)
    (fr : ModelResult) :
  fit_qvalue freq0 x y z = Ok (q, fr) ->
  exists c fwhm area pc delta qq,
    _get_fit_starting_points x y = Ok (c, fwhm, area)
    /\ guess (background x c fwhm y) (background x c fwhm x) = Some pc
    /\ fit y (mkParameters pc c fwhm area) x = Some fr
    /\ py_div (best_values_w fr * milli) (inject_Z (2 * z)) = Ok delta
    /\ py_div freq0 delta = Ok qq
    /\ q = py_round1 qq.
Proof.
  unfold fit_qvalue. intros Hfq.
  apply bind_Ok in Hfq as ([[c fwhm] area] & Hsp & Hfq).
  apply bind_Ok in Hfq as (pc & Hg & Hfq).
  apply bind_Ok in Hfq as (fr' & Hf & Hfq).
  apply bind_Ok in Hfq as (delta & Hd & Hfq).
  apply bind_Ok in Hfq as (qq & Hq & Hfq).
  injection Hfq as <- <-.
  exists c, fwhm, area, pc, delta, qq.
  unfold lmfit_call in Hg, Hf.
  destruct (guess _ _) eqn:Hg'; [| done].
  destruct (fit _ _ _) eqn:Hf'; [| done].
  by simplify_eq.
Qed.

Lemma fit_qvalue_length `{Lmfit} (freq0 : Q) (x y : list Q) (z : Z) (q : Q)
    (fr : ModelResult) :
  fit_qvalue freq0 x y z = Ok (q, fr) -> length x = length y /\ 8 <= length y.
Proof.
  intros Hfq. apply fit_qvalue_inv in Hfq as (c & w & a & _ & _ & _ & Hsp & _).
  destruct (starting_points_inv _ _ _ _ _ Hsp) as (_ & _ & Hlen).
  split; [done |]. destruct (decide (length x < 8)) as [Hs |]; [| lia].
  rewrite (starting_points_short x y Hlen Hs) in Hsp. done.
Qed.

(** X6. A curve of fewer than eight samples cannot be fitted:
    [fit_qvalue] raises [ValueError] in the starting-point heuristic,
    before lmfit is called, whatever the fit would do. *)
Theorem fit_qvalue_too_short `{Lmfit} (freq0 : Q) (x y : list Q) (z : Z) :
  length x = length y -> length x < 8 ->
  fit_qvalue freq0 x y z = Raise ValueError.
Proof.
  intros Hlen Hs. unfold fit_qvalue.
  by rewrite starting_points_short.
Qed.

Lemma fit_qvalue_too_short_witness :
  fit_qvalue (H := Concrete.failing_fit) (9385 # 1000) (arange 7)
             (inject_Z <$> [9; 9; 9; 0; 9; 9; 9]%Z) 1
  = Raise ValueError.
Proof. apply fit_qvalue_too_short; [reflexivity | simpl; lia]. Defined.

(** [round(x, 1)] is a multiple of one tenth, at most one twentieth
    away from [x]. *)
Lemma py_round1_spec (x : Q) :
  exists n : Z, py_round1 x = (n # 10)%Q
    /\ (x - (1 # 20) <= n # 10)%Q /\ (n # 10 <= x + (1 # 20))%Q.
Proof.
  unfold py_round1.
  pose proof (Qfloor_le (x * 10)) as Hlo.
  pose proof (Qlt_floor (x * 10)) as Hhi.
  rewrite inject_Z_plus in Hhi. change (inject_Z 1) with 1%Q in Hhi.
  set (f := Qfloor (x * 10)) in *.
  assert (Hf : forall n : Z, (n # 10 == inject_Z n * (1 # 10))%Q).
  { intros n. unfold Qeq. simpl. lia. }
  eexists. split; [reflexivity |].
  repeat case_decide; try destruct (Z.even f);
    rewrite Hf; try rewrite inject_Z_plus; change (inject_Z 1) with 1%Q; lra.
Qed.

(** X7. When [fit_qvalue] returns for a zoom factor [z >= 1] with a
    fitted width [w] other than zero, the Q-value is a multiple of one
    tenth that lies within 0.05 of [freq0 * 2000 * z / w]. *)
Theorem fit_qvalue_rounded `{Lmfit} (freq0 : Q) (x y : list Q) (z : Z)
    (q : Q) (fr : ModelResult) :
  (1 <= z)%Z ->
  fit_qvalue freq0 x y z = Ok (q, fr) ->
  let w := best_values_w fr in
  ~ (w == 0)%Q ->
  (exists n : Z, q = (n # 10)%Q)
  /\ (q - (1 # 20) <= freq0 * inject_Z (2000 * z) / w)%Q
  /\ (freq0 * inject_Z (2000 * z) / w <= q + (1 # 20))%Q.
Proof.
  intros Hz Hfq w Hw.
  apply fit_qvalue_inv in Hfq as (c & fw & a & pc & delta & qq & _ & _ & _ & Hd & Hq & ->).
  assert (Hz2 : ~ (inject_Z (2 * z) == 0)%Q) by (apply inject_Z_nonzero; lia).
  rewrite py_div_Ok in Hd by done. injection Hd as <-.
  unfold py_div in Hq. case_decide as Hw0; [done |]. injection Hq as <-.
  fold w in Hw0 |- *.
  destruct (py_round1_spec (freq0 / (w * milli / inject_Z (2 * z)))) as (n & -> & Hlo & Hhi).
  split; [eauto |].
  assert (Heq : (freq0 / (w * milli / inject_Z (2 * z))
                 == freq0 * inject_Z (2000 * z) / w)%Q).
  { assert (~ (inject_Z z == 0)%Q) by (apply inject_Z_nonzero; lia).
    rewrite !inject_Z_mult. unfold milli. field. done. }
  rewrite Heq in Hlo, Hhi. split; lra.
Qed.

Lemma fit_qvalue_rounded_witness :
  let lmfit := Concrete.first_guess (Some (1 # 2)%Q) in
  exists q fr,
    fit_qvalue (9385 # 1000) (arange 16) Concrete.curve 2 = Ok (q, fr)
    /\ ~ (best_values_w fr == 0)%Q
    /\ (exists n : Z, q = (n # 10)%Q)
    /\ (q - (1 # 20) <= (9385 # 1000) * inject_Z (2000 * 2) / best_values_w fr)%Q
    /\ ((9385 # 1000) * inject_Z (2000 * 2) / best_values_w fr <= q + (1 # 20))%Q.
Proof.
  intros lmfit.
  assert (Hfit : exists q fr,
             fit_qvalue (9385 # 1000) (arange 16) Concrete.curve 2 = Ok (q, fr)
             /\ ~ (best_values_w fr == 0)%Q)
    by (eexists _, _; split; [vm_compute; reflexivity | vm_compute; discriminate]).
  destruct Hfit as (q & fr & Hfit & Hw). exists q, fr.
  split; [exact Hfit |]. split; [exact Hw |].
  apply (fit_qvalue_rounded (9385 # 1000) (arange 16) Concrete.curve 2 q fr);
    [lia | exact Hfit | exact Hw].
Defined.

(** X8. The standard error of the Q-value that [get_qvalue_stderr]
    returns for a fitted width other than zero is a multiple of one
    tenth, and is not negative when [freq0] and the standard error of
    the width are not, whatever the sign of the width, which enters
    squared. *)
Theorem qvalue_stderr_nonneg (freq0 : Q) (fr : ModelResult) (e s : Q) :
  (0 <= freq0)%Q ->
  ~ (value (params_w fr) == 0)%Q ->
  stderr (params_w fr) = Some e -> (0 <= e)%Q ->
  get_qvalue_stderr freq0 fr = Ok s ->
  (0 <= s)%Q /\ exists n : Z, s = (n # 10)%Q.
Proof.
  intros Hf Hw He He0. unfold get_qvalue_stderr. rewrite He.
  intros Hs. apply bind_Ok in Hs as (q & Hq & Hs). injection Hs as <-.
  unfold py_div in Hq. case_decide as Hd; [done |]. injection Hq as <-.
  set (d := (value (params_w fr) * milli / 2)%Q) in *.
  assert (Hd2 : (0 < d * d)%Q).
  { assert (0 <= d * d)%Q by nra. simpl in Hd. lra. }
  destruct (py_round1_spec (freq0 / (d * d) * (e * milli / 2)))
    as (n & -> & Hlo & _).
  split; [| eauto].
  assert (Hpos : (0 <= freq0 / (d * d) * (e * milli / 2))%Q).
  { apply Qmult_le_0_compat.
    - apply Qle_shift_div_l; lra.
    - apply Qle_shift_div_l; [lra |]. unfold milli. lra. }
  destruct (Z_lt_le_dec n 0) as [Hn |].
  - exfalso. assert (n # 10 <= (-1) # 10)%Q by (unfold Qle; simpl; lia).
    assert ((-1 # 10) == - (1 # 10))%Q by reflexivity. lra.
  - unfold Qle. simpl. lia.
Qed.

Lemma qvalue_stderr_nonneg_witness :
  let fr := mkModelResult (mkFitParameter 8 (Some (1 # 2)%Q))
                          (mkFitParameter (-1) (Some (1 # 2)%Q))
                          (mkFitParameter 3 (Some (1 # 2)%Q)) [] in
  exists s,
    get_qvalue_stderr (9385 # 1000) fr = Ok s
    /\ (0 <= s)%Q /\ exists n : Z, s = (n # 10)%Q.
Proof.
  intros fr. eexists. split; [vm_compute; reflexivity |].
  apply (qvalue_stderr_nonneg (9385 # 1000) fr (1 # 2));
    [discriminate | discriminate | reflexivity | discriminate
    | vm_compute; reflexivity].
Defined.

(** ** A single zoom factor *)

Lemma StronglySorted_lt_seq (s n : nat) : StronglySorted lt (seq s n).
Proof.
  revert s. induction n as [| n IH]; intros s; simpl; constructor; [done |].
  apply Forall_forall. intros j Hj. apply elem_of_seq in Hj. lia.
Qed.

(** On a strictly ascending array [np.argsort] has no choice. *)
Lemma argsort_ascending `{Numpy} (l : list Q) :
  (forall i j a b, l !! i = Some a -> l !! j = Some b -> i < j -> (a < b)%Q) ->
  argsort l = seq 0 (length l).
Proof.
  intros Hasc.
  apply (StronglySorted_unique_strong lt); [lia | | apply StronglySorted_lt_seq
                                            | apply argsort_perm].
  pose proof (argsort_lt l) as Hlt.
  pose proof (argsort_sorted l) as Hsorted.
  assert (Hnd : NoDup (argsort l)).
  { rewrite (argsort_perm l). apply NoDup_seq. }
  induction (argsort l) as [| i idx IH]; [constructor |].
  apply Forall_cons_1 in Hlt as [Hi Hlt].
  apply NoDup_cons in Hnd as [Hni Hnd].
  rewrite fmap_cons in Hsorted. apply StronglySorted_inv in Hsorted as [Hs Hle].
  constructor; [by apply IH |].
  apply Forall_forall. intros j Hj.
  rewrite Forall_forall in Hlt. specialize (Hlt j Hj).
  rewrite Forall_forall in Hle.
  specialize (Hle (default 0%Q (l !! j))).
  destruct (lookup_lt_is_Some_2 l i Hi) as [a Ha].
  destruct (lookup_lt_is_Some_2 l j Hlt) as [b Hb].
  rewrite Ha, Hb in Hle. simpl in Hle.
  assert (Hab : (a <= b)%Q).
  { apply Hle. apply list_elem_of_fmap. exists j. by rewrite Hb. }
  destruct (Nat.lt_trichotomy i j) as [? | [-> | Hji]]; [done | done |].
  specialize (Hasc j i b a Hb Ha Hji). lra.
Qed.

Lemma take_indices_seq {A} (l : list A) :
  take_indices l (seq 0 (length l)) = Ok l.
Proof.
  destruct l as [| d l']; [done |].
  rewrite (take_indices_Ok d).
  - by rewrite <- list_fmap_lookup_seq.
  - apply Forall_forall. intros i Hi. apply elem_of_seq in Hi. lia.
Qed.

(** X9. A dataset with a single zoom factor [zf >= 1] is not reordered:
    when the fit of its curve returns, [combine_data] returns the axis
    of [_points_to_mhz] around the fitted center, 2000 times that axis,
    and the curve as it was given. *)
Theorem combine_data_single_zoom `{Lmfit} `{Numpy} (freq0 : Q) (zf : Z)
    (curve : list Q) (q : Q) (fr : ModelResult) :
  (1 <= zf)%Z ->
  fit_qvalue freq0 (arange (Z.of_nat (length curve))) curve zf = Ok (q, fr) ->
  exists axis,
    _points_to_mhz (Z.of_nat (length curve)) zf (best_values_x0 fr) = Ok axis
    /\ combine_data freq0 [(zf, curve)]
       = Ok (axis, (fun v => 2 / milli * v)%Q <$> axis, curve).
Proof.
  intros Hzf Hfq. rewrite points_to_mhz_Ok by lia.
  eexists. split; [reflexivity |].
  set (axis := (fun p => milli / inject_Z (2 * zf) * (p - best_values_x0 fr))%Q
                 <$> arange (Z.of_nat (length curve))).
  assert (Hlen : length axis = length curve).
  { unfold axis. rewrite length_fmap, length_arange. lia. }
  assert (Hsort : argsort axis = seq 0 (length axis)).
  { apply argsort_ascending. intros i j a b Ha Hb Hij.
    pose proof (points_to_mhz_step_pos zf Hzf) as Hs.
    apply points_to_mhz_lookup in Ha, Hb. subst.
    assert (inject_Z (Z.of_nat i) < inject_Z (Z.of_nat j))%Q
      by (rewrite <- Zlt_Qlt; lia).
    nra. }
  unfold combine_data, rescale. simpl. rewrite Hfq. simpl.
  rewrite points_to_mhz_Ok by lia. fold axis. simpl.
  rewrite !app_nil_r, Hsort, take_indices_seq. simpl.
  rewrite Hlen, take_indices_seq. reflexivity.
Qed.

Lemma combine_data_single_zoom_witness :
  let lmfit := Concrete.first_guess (Some (1 # 2)%Q) in
  exists q fr axis,
    fit_qvalue (9385 # 1000) (arange (Z.of_nat (length Concrete.curve)))
               Concrete.curve 1 = Ok (q, fr)
    /\ _points_to_mhz (Z.of_nat (length Concrete.curve)) 1 (best_values_x0 fr)
       = Ok axis
    /\ combine_data (9385 # 1000) [(1%Z, Concrete.curve)]
       = Ok (axis, (fun v => 2 / milli * v)%Q <$> axis, Concrete.curve).
Proof.
  intros lmfit.
  assert (Hfit : exists q fr,
             fit_qvalue (9385 # 1000) (arange (Z.of_nat (length Concrete.curve)))
                        Concrete.curve 1 = Ok (q, fr))
    by (eexists _, _; vm_compute; reflexivity).
  destruct Hfit as (q & fr & Hfit). exists q, fr.
  destruct (combine_data_single_zoom (9385 # 1000) 1 Concrete.curve q fr)
    as (axis & Haxis & Hcomb); [lia | exact Hfit |].
  exists axis. split; [exact Hfit |]. split; [exact Haxis | exact Hcomb].
Defined.

Lemma mapM_ext_result {A B} (f g : A -> result B) (l : list A) :
  (forall a, f a = g a) -> mapM (M := result) f l = mapM (M := result) g l.
Proof.
  intros Hfg. induction l as [| a l IH]; [done |]. simpl. by rewrite Hfg, IH.
Qed.

(** X10. What [combine_data] returns, or raises, does not depend on
    [self.freq0]: the per-zoom fits use the frequency for a Q-value that
    is thrown away, and the division by the fitted width fails or
    succeeds whatever the frequency. *)
Theorem combine_data_ignores_freq0 `{Lmfit} `{Numpy} (freq0 freq0' : Q)
    (d : list (Z * list Q)) :
  combine_data freq0 d = combine_data freq0' d.
Proof.
  assert (Hr : forall n e, rescale freq0 n e = rescale freq0' n e).
  { intros n [zf curve]. unfold rescale, fit_qvalue.
    destruct (_get_fit_starting_points _ _) as [[[c w] a] | ?]; simpl; [| done].
    destruct (lmfit_call (guess _ _)); simpl; [| done].
    destruct (lmfit_call (fit _ _ _)); simpl; [| done].
    destruct (py_div (best_values_w _ * milli) _) as [delta | ?]; simpl; [| done].
    unfold py_div. by destruct (decide (delta == 0)%Q). }
  unfold combine_data. destruct d as [| [zf first] d']; [done |].
  by rewrite (mapM_ext_result _ _ _ (Hr _)).
Qed.

(** ** The constructor *)

(** X11. When lmfit gives no standard error for the width (its
    [stderr] is [None]), the constructor raises [TypeError], although
    the data was combined and the Q-value computed. *)
Theorem init_without_stderr `{Lmfit} `{Numpy} `{Runtime}
    (d : list (Z * list Q)) (freq : Q) (md : option (gmap string meta_value))
    (xm xp y : list Q) (q : Q) (fr : ModelResult) :
  combine_data freq d = Ok (xm, xp, y) ->
  fit_qvalue freq xp y 1 = Ok (q, fr) ->
  stderr (params_w fr) = None ->
  __init__ (InputData d) freq md = Raise TypeError.
Proof.
  intros Hc Hf Hs. unfold __init__. rewrite Hc. simpl. rewrite Hf. simpl.
  unfold get_qvalue_stderr. rewrite Hs. reflexivity.
Qed.

Lemma init_without_stderr_witness :
  let lmfit := Concrete.first_guess None in
  let clock := Concrete.stopped_clock in
  __init__ (InputData [(1%Z, Concrete.curve)]) (9385 # 1000) None
  = Raise TypeError.
Proof.
  intros lmfit clock.
  eapply init_without_stderr;
    [vm_compute; reflexivity | vm_compute; reflexivity | reflexivity].
Defined.

(** What a successful construction from a dataset has gone through. *)
Lemma init_data_Ok `{Lmfit} `{Numpy} `{Runtime}
    (d : list (Z * list Q)) (freq : Q) (md : option (gmap string meta_value))
    (mp : ModePicture) :
  __init__ (InputData d) freq md = Ok mp ->
  combine_data freq d = Ok (x_data_mhz mp, x_data_points mp, y_data mp)
  /\ fit_qvalue freq (x_data_points mp) (y_data mp) 1 = Ok (qvalue mp, fit_result mp)
  /\ get_qvalue_stderr freq (fit_result mp) = Ok (qvalue_stderr mp)
  /\ freq0 mp = freq
  /\ mode_pic_data mp = Some d
  /\ metadata mp
     = <["QValueErr" := MFloat (qvalue_stderr mp)]>
         (<["QValue" := MFloat (qvalue mp)]>
            (<["Frequency" := MGHz freq]>
               (<["Time" := MStr strftime]> (default ∅ md)))).
Proof.
  unfold __init__. intros Hi.
  apply bind_Ok in Hi as ([[xm xp] y] & Hc & Hi).
  apply bind_Ok in Hi as ([q fr] & Hf & Hi).
  apply bind_Ok in Hi as (s & Hs & Hi).
  injection Hi as <-. simpl. by destruct md.
Qed.

(** X12. A mode picture built from a dataset holds in its metadata the
    time of the clock, the frequency it was given, its Q-value and the
    standard error of it under the keys Time, Frequency, QValue and
    QValueErr, whatever the caller had stored under them; every other
    entry of the caller's metadata is kept; and [freq0] is the frequency
    given. *)
Theorem init_metadata `{Lmfit} `{Numpy} `{Runtime}
    (d : list (Z * list Q)) (freq : Q) (md : option (gmap string meta_value))
    (mp : ModePicture) :
  __init__ (InputData d) freq md = Ok mp ->
  metadata mp !! "Time" = Some (MStr strftime)
  /\ metadata mp !! "Frequency" = Some (MGHz freq)
  /\ metadata mp !! "QValue" = Some (MFloat (qvalue mp))
  /\ metadata mp !! "QValueErr" = Some (MFloat (qvalue_stderr mp))
  /\ (forall k : string,
        k ∉ ["Time"; "Frequency"; "QValue"; "QValueErr"] ->
        metadata mp !! k = default ∅ md !! k)
  /\ freq0 mp = freq.
Proof.
  intros Hi. apply init_data_Ok in Hi as (_ & _ & _ & Hf & _ & ->).
  repeat split.
  - by simplify_map_eq.
  - by simplify_map_eq.
  - by simplify_map_eq.
  - by simplify_map_eq.
  - intros k Hk. rewrite !not_elem_of_cons in Hk.
    destruct Hk as (? & ? & ? & ? & _). by rewrite !lookup_insert_ne.
  - done.
Qed.

Lemma init_metadata_witness :
  let lmfit := Concrete.first_guess (Some (1 # 2)%Q) in
  let clock := Concrete.stopped_clock in
  let md : gmap string meta_value :=
    {[ "Operator" := MStr "sam"; "QValue" := MStr "unknown" ]} in
  exists mp,
    __init__ (InputData [(1%Z, Concrete.curve)]) (9385 # 1000) (Some md) = Ok mp
    /\ metadata mp !! "Time" = Some (MStr strftime)
    /\ metadata mp !! "Frequency" = Some (MGHz (9385 # 1000))
    /\ metadata mp !! "QValue" = Some (MFloat (qvalue mp))
    /\ metadata mp !! "QValueErr" = Some (MFloat (qvalue_stderr mp))
    /\ (forall k : string,
          k ∉ ["Time"; "Frequency"; "QValue"; "QValueErr"] ->
          metadata mp !! k = default ∅ (Some md) !! k)
    /\ freq0 mp = (9385 # 1000)%Q.
Proof.
  intros lmfit clock md.
  assert (Hmp : exists mp,
             __init__ (InputData [(1%Z, Concrete.curve)]) (9385 # 1000) (Some md)
             = Ok mp)
    by (eexists; vm_compute; reflexivity).
  destruct Hmp as [mp Hmp]. exists mp. split; [exact Hmp |].
  exact (init_metadata _ _ _ _ Hmp).
Defined.

Lemma combine_data_lengths `{Lmfit} `{Numpy} (freq0 : Q) (d : list (Z * list Q))
    (xm xp y : list Q) :
  combine_data freq0 d = Ok (xm, xp, y) ->
  length xm = length y /\ xp = (fun v => 2 / milli * v)%Q <$> xm.
Proof.
  unfold combine_data. destruct d as [| [zf first] d']; [done |].
  intros Hc. apply bind_Ok in Hc as (axes & _ & Hc).
  apply bind_Ok in Hc as (xm' & Hx & Hc).
  apply bind_Ok in Hc as (y' & Hy & Hc).
  injection Hc as <- <- <-.
  unfold take_indices in Hx, Hy.
  apply mapM_Ok, Forall2_length in Hx, Hy. split; [congruence | done].
Qed.

Lemma column_length (m : ndarray) (j k : nat) (a b : list Q) :
  column m j = Ok a -> column m k = Ok b -> length a = length b.
Proof.
  destruct m as [| | rows]; [done | done |]. simpl. intros Ha Hb.
  apply mapM_Ok, Forall2_length in Ha, Hb. congruence.
Qed.

(** The attributes of a constructed object, whichever way it was built. *)
Lemma init_Ok `{Lmfit} `{Numpy} `{Runtime}
    (input : constructor_input) (freq : Q)
    (md : option (gmap string meta_value)) (mp : ModePicture) :
  __init__ input freq md = Ok mp ->
  length (x_data_mhz mp) = length (y_data mp)
  /\ x_data_points mp = (fun v => 2 / milli * v)%Q <$> x_data_mhz mp
  /\ fit_qvalue (freq0 mp) (x_data_points mp) (y_data mp) 1
     = Ok (qvalue mp, fit_result mp)
  /\ get_qvalue_stderr (freq0 mp) (fit_result mp) = Ok (qvalue_stderr mp).
Proof.
  destruct input as [file | d |]; [| | done].
  - intros Hl. apply load_Ok in Hl
      as (m & s & _ & Hx & Hy & Hp & _ & _ & _ & Hf & Hs).
    by rewrite (column_length _ _ _ _ _ Hx Hy).
  - intros Hi. apply init_data_Ok in Hi as (Hc & Hf & Hs & Hf0 & _).
    destruct (combine_data_lengths _ _ _ _ _ Hc) as [Hlen Hp].
    by rewrite Hf0.
Qed.

(** X13. Every mode picture that the constructor returns, from a file
    or from a dataset, has its two axes as long as its curve, which is
    what [len] gives, and at least eight samples; its point axis is 2000
    times its frequency axis; and its Q-value and the standard error of
    it are those of the fit of its curve over its point axis at zoom
    factor 1. *)
Theorem init_axes `{Lmfit} `{Numpy} `{Runtime}
    (input : constructor_input) (freq : Q)
    (md : option (gmap string meta_value)) (mp : ModePicture) :
  __init__ input freq md = Ok mp ->
  length (x_data_mhz mp) = __len__ mp
  /\ length (x_data_points mp) = __len__ mp
  /\ 8 <= __len__ mp
  /\ Forall2 (fun p f => p == 2000 * f)%Q (x_data_points mp) (x_data_mhz mp)
  /\ fit_qvalue (freq0 mp) (x_data_points mp) (y_data mp) 1
     = Ok (qvalue mp, fit_result mp)
  /\ get_qvalue_stderr (freq0 mp) (fit_result mp) = Ok (qvalue_stderr mp).
Proof.
  intros Hi. apply init_Ok in Hi as (Hlen & Hp & Hf & Hs). unfold __len__.
  destruct (fit_qvalue_length _ _ _ _ _ _ Hf) as [_ H8].
  split; [done |]. split; [by rewrite Hp, length_fmap |]. split; [done |].
  split; [| done]. rewrite Hp.
  apply Forall2_fmap_l, Forall_Forall2_diag, Forall_forall.
  intros f _. simpl. unfold milli. field.
Qed.

Lemma init_axes_witness :
  let lmfit := Concrete.first_guess (Some (1 # 2)%Q) in
  let clock := Concrete.stopped_clock in
  exists mp,
    __init__ (InputPath Concrete.saved_file) (9385 # 1000) None = Ok mp
    /\ length (x_data_mhz mp) = __len__ mp
    /\ length (x_data_points mp) = __len__ mp
    /\ 8 <= __len__ mp
    /\ Forall2 (fun p f => p == 2000 * f)%Q (x_data_points mp) (x_data_mhz mp)
    /\ fit_qvalue (freq0 mp) (x_data_points mp) (y_data mp) 1
       = Ok (qvalue mp, fit_result mp)
    /\ get_qvalue_stderr (freq0 mp) (fit_result mp) = Ok (qvalue_stderr mp).
Proof.
  intros lmfit clock.
  assert (Hmp : exists mp,
             __init__ (InputPath Concrete.saved_file) (9385 # 1000) None = Ok mp)
    by (eexists; vm_compute; reflexivity).
  destruct Hmp as [mp Hmp]. exists mp. split; [exact Hmp |].
  exact (init_axes _ _ _ _ Hmp).
Defined.

(** X14. What the constructor rejects at once: an argument that is
    neither a path nor a dict raises [TypeError]; an empty dict raises
    the [StopIteration] of [next]; and a dict whose first curve has fewer
    than eight samples raises [ValueError], whatever the other curves
    and the fit. *)
Theorem init_rejects `{Lmfit} `{Numpy} `{Runtime} (freq : Q)
    (md : option (gmap string meta_value)) :
  __init__ InputOther freq md = Raise TypeError
  /\ __init__ (InputData []) freq md = Raise StopIteration
  /\ forall zf first d,
       length first < 8 ->
       __init__ (InputData ((zf, first) :: d)) freq md = Raise ValueError.
Proof.
  split; [done |]. split; [done |].
  intros zf first d Hshort. unfold __init__, combine_data.
  rewrite (mapM_Raise_first _ [] d (zf, first) ValueError); [done | constructor |].
  unfold rescale, fit_qvalue.
  rewrite starting_points_short; [done | | ].
  - rewrite length_arange. lia.
  - rewrite length_arange. lia.
Qed.

Lemma init_rejects_witness :
  let lmfit := Concrete.first_guess (Some (1 # 2)%Q) in
  let clock := Concrete.stopped_clock in
  __init__ InputOther (9385 # 1000) None = Raise TypeError
  /\ __init__ (InputData []) (9385 # 1000) None = Raise StopIteration
  /\ __init__ (InputData [(1%Z, inject_Z <$> [9; 9; 9; 0; 9; 9; 9]%Z);
                          (2%Z, Concrete.curve)]) (9385 # 1000) None
     = Raise ValueError.
Proof.
  intros lmfit clock.
  destruct (init_rejects (9385 # 1000) None) as (Hother & Hempty & Hshort).
  split; [exact Hother |]. split; [exact Hempty |].
  apply Hshort. simpl. lia.
Defined.

(** ** The background of a fit *)

Lemma py_slice_zip {A B} (a b : Z) (l : list A) (k : list B) :
  length l = length k ->
  py_slice a b (zip l k) = zip (py_slice a b l) (py_slice a b k).
Proof.
  intros Hlen. unfold py_slice.
  rewrite length_zip_with, <- Hlen, Nat.min_id.
  by rewrite <- zip_with_take, <- zip_with_drop.
Qed.

Lemma length_py_slice {A B} (a b : Z) (l : list A) (k : list B) :
  length l = length k -> length (py_slice a b l) = length (py_slice a b k).
Proof.
  intros Hlen. unfold py_slice. rewrite !length_take, !length_drop, Hlen. done.
Qed.

(** X15. Whenever [fit_qvalue] returns, the two arrays that it handed
    to the guess of the polynomial were of the same length, and paired
    sample by sample: the background of the x-values zipped with the
    background of the y-values is the background of the pairs [(x, y)],
    all of them samples of the data. *)
Theorem background_pairs `{Lmfit} (freq0 : Q) (x y : list Q) (z : Z)
    (q : Q) (fr : ModelResult) :
  fit_qvalue freq0 x y z = Ok (q, fr) ->
  exists c fwhm area pc,
    _get_fit_starting_points x y = Ok (c, fwhm, area)
    /\ guess (background x c fwhm y) (background x c fwhm x) = Some pc
    /\ fit y (mkParameters pc c fwhm area) x = Some fr
    /\ length (background x c fwhm x) = length (background x c fwhm y)
    /\ zip (background x c fwhm x) (background x c fwhm y)
       = background x c fwhm (zip x y)
    /\ background x c fwhm (zip x y) ⊆ zip x y.
Proof.
  intros Hfq.
  apply fit_qvalue_inv in Hfq as (c & w & a & pc & _ & _ & Hsp & Hg & Hf & _).
  exists c, w, a, pc. split; [done |]. split; [done |]. split; [done |].
  destruct (starting_points_inv _ _ _ _ _ Hsp) as (_ & _ & Hlen).
  unfold background. split; [| split].
  - rewrite !length_app. f_equal; by apply length_py_slice.
  - rewrite !py_slice_zip by done.
    rewrite zip_with_app; [done |]. by apply length_py_slice.
  - intros p Hp. apply elem_of_app in Hp as [Hp | Hp];
      (eapply elem_of_submseteq; [exact Hp |]);
      apply sublist_submseteq; unfold py_slice;
      (etrans; [apply sublist_take | apply sublist_drop]).
Qed.

Lemma background_pairs_witness :
  let lmfit := Concrete.first_guess (Some (1 # 2)%Q) in
  let x := arange 16 in
  let y := Concrete.curve in
  exists q fr c fwhm area pc,
    fit_qvalue (9385 # 1000) x y 1 = Ok (q, fr)
    /\ _get_fit_starting_points x y = Ok (c, fwhm, area)
    /\ guess (background x c fwhm y) (background x c fwhm x) = Some pc
    /\ fit y (mkParameters pc c fwhm area) x = Some fr
    /\ length (background x c fwhm x) = length (background x c fwhm y)
    /\ zip (background x c fwhm x) (background x c fwhm y)
       = background x c fwhm (zip x y)
    /\ background x c fwhm (zip x y) ⊆ zip x y.
Proof.
  intros lmfit x y.
  assert (Hfit : exists q fr, fit_qvalue (9385 # 1000) x y 1 = Ok (q, fr))
    by (eexists _, _; vm_compute; reflexivity).
  destruct Hfit as (q & fr & Hfit). exists q, fr.
  destruct (background_pairs (9385 # 1000) x y 1 q fr Hfit)
    as (c & fwhm & area & pc & Hrest).
  exists c, fwhm, area, pc. split; [exact Hfit | exact Hrest].
Defined.

(** ** Strings *)

Lemma string_app_cons (x : ascii) (a b : string) :
  String x a +:+ b = String x (a +:+ b).
Proof. reflexivity. Qed.

Lemma string_app_nil_l (a : string) : EmptyString +:+ a = a.
Proof. reflexivity. Qed.

Lemma string_app_assoc (a b c : string) : (a +:+ b) +:+ c = a +:+ b +:+ c.
Proof. induction a as [| x a IH]; [done |]. by rewrite !string_app_cons, IH. Qed.

Lemma string_app_nil_r (a : string) : a +:+ EmptyString = a.
Proof. induction a as [| x a IH]; [done |]. by rewrite string_app_cons, IH. Qed.

Lemma string_forallb_app (p : ascii -> bool) (a b : string) :
  string_forallb p (a +:+ b) = string_forallb p a && string_forallb p b.
Proof.
  induction a as [| x a IH]; [done |].
  rewrite string_app_cons. simpl. by rewrite IH, andb_assoc.
Qed.

Lemma string_forallb_impl (p q : ascii -> bool) (s : string) :
  (forall c, p c = true -> q c = true) ->
  string_forallb p s = true -> string_forallb q s = true.
Proof.
  intros Hpq. induction s as [| c s IH]; [done |]. simpl.
  intros [Hc Hs]%andb_true_iff. by rewrite (Hpq c Hc), IH.
Qed.

Lemma replace_newline_id (new s : string) :
  no_newline s -> replace_newline new s = s.
Proof.
  unfold no_newline. induction s as [| c s IH]; [done |]. simpl.
  intros [Hc Hs]%andb_true_iff. apply negb_true_iff in Hc. rewrite Hc.
  by rewrite IH.
Qed.

Lemma replace_newline_app (new a b : string) :
  replace_newline new (a +:+ b)
  = replace_newline new a +:+ replace_newline new b.
Proof.
  induction a as [| c a IH]; [done |]. rewrite string_app_cons. simpl.
  destruct (Ascii.eqb c newline); rewrite IH; [| done].
  by rewrite string_app_assoc.
Qed.

Tactic Notation "string_norm" :=
  repeat (rewrite string_app_assoc || rewrite string_app_cons
          || rewrite string_app_nil_l).
Tactic Notation "string_norm" "in" hyp(H) :=
  repeat (rewrite string_app_assoc in H || rewrite string_app_cons in H
          || rewrite string_app_nil_l in H).

(** The header that [np.savetxt] writes, line by line. *)
Lemma savetxt_header (l : string) (ls : list string) (rest : string) :
  Forall no_newline (l :: ls) ->
  ("# " +:+ replace_newline (String newline "# ")
              (join (String newline EmptyString) (l :: ls))
        +:+ String newline EmptyString) +:+ rest
  = Concrete.unlines ((fun s => "# " +:+ s) <$> (l :: ls)) +:+ rest.
Proof.
  revert l. induction ls as [| l' ls IH]; intros l Hall.
  - apply Forall_cons_1 in Hall as [Hl _]. simpl.
    rewrite (replace_newline_id _ _ Hl). by string_norm.
  - apply Forall_cons_1 in Hall as [Hl Hall].
    change (join (String newline EmptyString) (l :: l' :: ls))
      with (l +:+ String newline EmptyString
              +:+ join (String newline EmptyString) (l' :: ls)).
    rewrite !replace_newline_app, (replace_newline_id _ _ Hl).
    change (replace_newline (String newline "# ") (String newline EmptyString))
      with (String newline "# ").
    rewrite fmap_cons.
    change (Concrete.unlines (("# " +:+ l) :: ?t))
      with (("# " +:+ l) +:+ String newline (Concrete.unlines t)).
    specialize (IH l' Hall).
    string_norm in IH. string_norm. by rewrite IH.
Qed.

Lemma readlines_line (l rest : string) :
  no_line_end l ->
  readlines (l +:+ String newline rest)
  = (l +:+ String newline EmptyString) :: readlines rest.
Proof.
  unfold no_line_end. induction l as [| c l IH]; intros Hl.
  - reflexivity.
  - simpl in Hl. apply andb_true_iff in Hl as [Hc Hl].
    unfold line_char in Hc. apply andb_true_iff in Hc as [Hlf Hcr].
    apply negb_true_iff in Hlf, Hcr. rewrite string_app_cons.
    change (readlines (String c (l +:+ String newline rest)))
      with (if Ascii.eqb c newline
            then String newline EmptyString
                   :: readlines (l +:+ String newline rest)
            else if Ascii.eqb c carriage_return
            then String newline EmptyString
                   :: match l +:+ String newline rest with
                      | String c' s'' =>
                          if Ascii.eqb c' newline then readlines s''
                          else readlines (l +:+ String newline rest)
                      | EmptyString => []
                      end
            else match readlines (l +:+ String newline rest) with
                 | [] => [String c EmptyString]
                 | l' :: ls => String c l' :: ls
                 end).
    rewrite Hlf, Hcr, (IH Hl). done.
Qed.

Lemma no_line_end_no_newline (s : string) : no_line_end s -> no_newline s.
Proof.
  apply string_forallb_impl. intros c. unfold line_char.
  by intros [? _]%andb_true_iff.
Qed.

Lemma readlines_unlines (ls : list string) :
  Forall no_line_end ls ->
  readlines (Concrete.unlines ls)
  = (fun l => l +:+ String newline EmptyString) <$> ls.
Proof.
  induction 1 as [| l ls Hl _ IH]; [done |].
  change (Concrete.unlines (l :: ls))
    with (l +:+ String newline (Concrete.unlines ls)).
  by rewrite readlines_line, IH.
Qed.

Lemma unlines_app (l1 l2 : list string) :
  Concrete.unlines (l1 ++ l2) = Concrete.unlines l1 +:+ Concrete.unlines l2.
Proof.
  induction l1 as [| l l1 IH]; [done |].
  change (Concrete.unlines ((l :: l1) ++ l2))
    with (l +:+ String newline (Concrete.unlines (l1 ++ l2))).
  change (Concrete.unlines (l :: l1))
    with (l +:+ String newline (Concrete.unlines l1)).
  rewrite IH. by string_norm.
Qed.

(** ** The text of a number *)

Lemma is_digit_char (d : Z) : is_digit (digit_char d) = true.
Proof.
  unfold digit_char.
  assert (Hd : Z.to_nat (d mod 10) < 10)
    by (pose proof (Z.mod_pos_bound d 10); lia).
  generalize dependent (Z.to_nat (d mod 10)). intros k Hk.
  do 10 (destruct k as [| k]; [reflexivity |]). lia.
Qed.

Lemma digits_is_digit (n : nat) (m : Z) :
  string_forallb is_digit (digits n m) = true.
Proof.
  revert m. induction n as [| n IH]; intros m; [done |].
  change (digits (S n) m)
    with (digits n (m / 10) +:+ String (digit_char m) EmptyString).
  rewrite string_forallb_app, IH.
  change (string_forallb is_digit (String (digit_char m) EmptyString))
    with (is_digit (digit_char m) && true).
  by rewrite is_digit_char.
Qed.

Lemma is_digit_plain (c : ascii) : is_digit c = true -> plain_char c = true.
Proof.
  destruct c as [[] [] [] [] [] [] [] []]; vm_compute; congruence.
Qed.

Lemma digits_plain (n : nat) (m : Z) : string_forallb plain_char (digits n m) = true.
Proof. eapply string_forallb_impl; [apply is_digit_plain | apply digits_is_digit]. Qed.

Lemma format_9E_plain (x : Q) :
  string_forallb plain_char (format_9E x) = true
  /\ exists c s, format_9E x = String c s.
Proof.
  unfold format_9E.
  destruct (if decide (_ == 0)%Q then _ else _) as [m e].
  split.
  - rewrite !string_forallb_app, !digits_plain.
    by repeat case_decide.
  - case_decide; [by eauto |].
    change (digits 1 (m / 10 ^ 9)) with (String (digit_char (m / 10 ^ 9)) EmptyString).
    rewrite string_app_nil_l, string_app_cons. eauto.
Qed.

(** The format on some numbers: a tie goes to the even digit, and a
    mantissa that rounds up to ten takes the next exponent. *)
Example format_9E_examples :
  format_9E (-2 # 1000) = "-2.000000000E-03"
  /\ format_9E (9385 # 1000) = "9.385000000E+00"
  /\ format_9E 0 = "0.000000000E+00"
  /\ format_9E (2000000001 # 2) = "1.000000000E+09"
  /\ format_9E (2000000003 # 2) = "1.000000002E+09"
  /\ format_9E 99999999995 = "1.000000000E+11"
  /\ format_9E (1 # 10 ^ 100) = "1.000000000E-100".
Proof. repeat split; vm_compute; reflexivity. Qed.

Lemma savetxt_rows (X : list (list Q)) :
  foldr (fun row rest =>
           (join (String tab EmptyString) (format_9E <$> row)
              +:+ String newline EmptyString) +:+ rest) EmptyString X
  = Concrete.unlines (row_line <$> X).
Proof.
  induction X as [| row X IH]; [done |]. simpl. rewrite IH.
  unfold row_line. by string_norm.
Qed.

Lemma plain_char_tab : plain_char tab = true.
Proof. reflexivity. Qed.

Lemma row_line_plain (a b : Q) :
  string_forallb plain_char (row_line [a; b]) = true
  /\ startswith_hash (row_line [a; b] +:+ String newline EmptyString) = false.
Proof.
  destruct (format_9E_plain a) as [Ha (c & s & Hs)].
  destruct (format_9E_plain b) as [Hb _].
  unfold row_line. simpl. split.
  - by rewrite !string_forallb_app, Ha, Hb.
  - rewrite Hs in Ha |- *. simpl in Ha. apply andb_true_iff in Ha as [Hc _].
    string_norm. unfold plain_char in Hc. apply andb_true_iff in Hc as [_ Hc].
    apply negb_true_iff, Ascii.eqb_neq in Hc. simpl.
    destruct c as [[] [] [] [] [] [] [] []]; try done.
Qed.

Lemma plain_no_line_end (s : string) :
  string_forallb plain_char s = true -> no_line_end s.
Proof.
  apply string_forallb_impl. intros c. unfold plain_char.
  by intros [? _]%andb_true_iff.
Qed.

(** ** Saving and loading *)

Lemma key_char_no_line_end (k : string) :
  string_forallb key_char k = true -> no_line_end k.
Proof.
  apply string_forallb_impl. intros c. unfold key_char.
  by intros [[_ ?]%andb_true_iff _]%andb_true_iff.
Qed.

Lemma value_char_no_line_end (v : string) :
  string_forallb value_char v = true -> no_line_end v.
Proof.
  apply string_forallb_impl. intros c. unfold value_char.
  by intros [_ ?]%andb_true_iff.
Qed.

Lemma match_metadata_word (k v : string) :
  string_forallb is_word k = true -> no_newline v ->
  match_metadata (("# " +:+ k +:+ String ":" (String tab v))
                  +:+ String newline EmptyString) = Some (k, v).
Proof.
  intros Hk Hv. apply match_metadata_spec.
  exists (String newline EmptyString). split; [by string_norm |].
  split; [done |]. split; [done |]. right. eauto.
Qed.

Lemma match_metadata_unfold (rest0 key rest1 : string) :
  span is_word rest0 = (key, rest1) ->
  match_metadata ("# " +:+ rest0)
  = (rest ← strip_prefix (String ":" (String tab EmptyString)) rest1;
     Some (key, (span (fun c => negb (Ascii.eqb c newline)) rest).1)).
Proof.
  intros Hspan. unfold match_metadata. rewrite strip_prefix_append. simpl.
  by rewrite Hspan.
Qed.

Lemma match_metadata_not_word (k v : string) :
  string_forallb is_word k = false -> string_forallb key_char k = true ->
  match_metadata (("# " +:+ k +:+ String ":" (String tab v))
                  +:+ String newline EmptyString) = None.
Proof.
  intros Hk Hkey.
  pose proof (span_append is_word k) as Happ.
  pose proof (span_forallb is_word k) as Hu.
  pose proof (span_rest is_word k) as Hrest.
  destruct (span is_word k) as [u t]. simpl in Happ, Hu, Hrest.
  destruct Hrest as [-> | (c & r & -> & Hc)].
  { rewrite string_app_nil_r in Happ. congruence. }
  set (R := String ":" (String tab v) +:+ String newline EmptyString).
  assert (Hline : ("# " +:+ k +:+ String ":" (String tab v))
                  +:+ String newline EmptyString
                  = "# " +:+ u +:+ String c (r +:+ R)).
  { rewrite Happ. unfold R. by string_norm. }
  assert (Hstrip : strip_prefix (String ":" (String tab EmptyString))
                                (String c (r +:+ R)) = None).
  { destruct (strip_prefix _ _) as [rest |] eqn:Hstrip; [| done].
    exfalso. apply strip_prefix_Some in Hstrip.
    rewrite !string_app_cons, string_app_nil_l in Hstrip.
    injection Hstrip as -> Hr.
    rewrite Happ, string_forallb_app in Hkey.
    apply andb_true_iff in Hkey as [_ Hkey]. simpl in Hkey.
    destruct r as [| c' r]; [by rewrite string_app_nil_l in Hr |].
    rewrite string_app_cons in Hr. injection Hr as -> _. done. }
  rewrite Hline, (match_metadata_unfold _ u (String c (r +:+ R))).
  - by rewrite Hstrip.
  - apply span_unique; [done | right; eauto].
Qed.

(** What the loop of [load] makes of the metadata lines that [save]
    wrote: the entries with a key of word characters, in their order. *)
Lemma read_metadata_lines `{Formatting} (items : list (string * meta_value))
    (m : gmap string meta_value) :
  Forall header_entry items ->
  read_metadata m (metadata_line <$> items)
  = foldl (fun m kv => <[kv.1 := MStr (str_value kv.2)]> m) m
          (filter (fun kv => string_forallb is_word kv.1 = true) items).
Proof.
  intros Hall. revert m. induction Hall as [| [k v] items [Hk Hv] _ IH]; intros m.
  - done.
  - rewrite fmap_cons. unfold read_metadata in *. simpl foldl at 1.
    unfold metadata_line at 1. simpl in Hk, Hv |- *.
    rewrite filter_cons. simpl.
    destruct (string_forallb is_word k) eqn:Hw.
    + rewrite match_metadata_word
        by (done || by apply no_line_end_no_newline, value_char_no_line_end).
      rewrite decide_True by done.
      simpl. apply IH.
    + rewrite match_metadata_not_word by done. rewrite decide_False by done.
      apply IH.
Qed.

Lemma foldl_insert_list_to_map (l : list (string * meta_value))
    (m : gmap string meta_value) :
  NoDup l.*1 ->
  foldl (fun m kv => <[kv.1 := kv.2]> m) m l = list_to_map l ∪ m.
Proof.
  revert m. induction l as [| [k v] l IH]; intros m Hnd.
  - simpl. by rewrite (left_id_L ∅ (∪)).
  - rewrite fmap_cons in Hnd. apply NoDup_cons in Hnd as [Hk Hnd].
    simpl. rewrite (IH _ Hnd). rewrite <- insert_union_l.
    symmetry. apply insert_union_r. by apply not_elem_of_list_to_map_1.
Qed.

Lemma join_cons_nonempty (sep l : string) (ls : list string) :
  ls <> [] -> join sep (l :: ls) = l +:+ sep +:+ join sep ls.
Proof. by destruct ls. Qed.

(** The lines of the file that [save] writes: the metadata, the column
    titles, the rows of the table. *)
Lemma save_lines `{Formatting} (items : list (string * meta_value))
    (x y : list Q) (file : string) :
  Forall header_entry items ->
  save items x y = Ok file ->
  length x = length y
  /\ readlines file
     = (metadata_line <$> items)
       ++ [Concrete.column_titles +:+ String newline EmptyString]
       ++ ((fun r => row_line r +:+ String newline EmptyString)
             <$> zip_with (fun a b => [a; b]) x y).
Proof.
  intros Hall. unfold save. case_decide as Hlen; [| done].
  intros [= <-]. split; [done |].
  set (mlines := (fun kv => kv.1 +:+ String ":" (String tab (str_value kv.2)))
                   <$> items).
  set (titles := join (String tab EmptyString) ["freq [MHz]"; "MW abs. [a.u.]"]).
  set (X := zip_with (fun a b => [a; b]) x y).
  assert (Hm : Forall no_line_end (mlines ++ [titles])).
  { apply Forall_app. split; [| by repeat constructor].
    unfold mlines. apply Forall_fmap. eapply Forall_impl; [exact Hall |].
    intros [k v] [Hk Hv]. simpl in *. unfold no_line_end.
    rewrite string_forallb_app. apply key_char_no_line_end in Hk.
    apply value_char_no_line_end in Hv.
    unfold no_line_end in Hk, Hv. rewrite Hk. simpl. exact Hv. }
  assert (Hrows : Forall (fun r => string_forallb plain_char (row_line r) = true
                            /\ startswith_hash (row_line r +:+ String newline EmptyString)
                               = false) X).
  { unfold X. clear. revert y. induction x as [| a x IH]; intros [| b y];
      simpl; constructor; [apply row_line_plain | apply IH]. }
  assert (Htext : np_savetxt X (join (String newline EmptyString) (mlines ++ [titles]))
                  = Concrete.unlines (((fun s => "# " +:+ s) <$> (mlines ++ [titles]))
                                      ++ (row_line <$> X))).
  { unfold np_savetxt. rewrite savetxt_rows, unlines_app.
    destruct (mlines ++ [titles]) as [| l ls] eqn:Hl.
    { by destruct mlines. }
    rewrite <- (savetxt_header l ls);
      [| eapply Forall_impl; [exact Hm | apply no_line_end_no_newline]].
    destruct (join _ (l :: ls)) eqn:Hj; [| by string_norm].
    exfalso. destruct ls as [| l' ls].
    - destruct mlines as [| ? [| ? ?]]; simplify_eq/=.
    - rewrite join_cons_nonempty in Hj by done. by destruct l. }
  change (readlines (np_savetxt X (join (String newline EmptyString)
                                        (mlines ++ [titles]))) = 
          (metadata_line <$> items)
          ++ [Concrete.column_titles +:+ String newline EmptyString]
          ++ ((fun r => row_line r +:+ String newline EmptyString) <$> X)).
  rewrite Htext, readlines_unlines.
  - rewrite !fmap_app, <- app_assoc. unfold mlines.
    rewrite <- !list_fmap_compose. reflexivity.
  - apply Forall_app. split.
    + apply Forall_fmap. eapply Forall_impl; [exact Hm |].
      intros s Hs. simpl. exact Hs.
    + apply Forall_fmap. eapply Forall_impl; [exact Hrows |].
      intros r [Hr _]. simpl. by apply plain_no_line_end.
Qed.

(** The header of the file is the metadata and the column titles: no
    row of the table starts with a hash sign. *)
Lemma save_header_length `{Formatting} (items : list (string * meta_value))
    (x y : list Q) (file : string) :
  Forall header_entry items ->
  save items x y = Ok file ->
  header_length (readlines file) = length items + 1.
Proof.
  intros Hall Hsave.
  destruct (save_lines _ _ _ _ Hall Hsave) as [Hlen Hlines].
  rewrite Hlines. unfold header_length. rewrite !filter_app, !length_app.
  rewrite filter_all, filter_all, filter_none.
  - rewrite length_fmap. simpl. lia.
  - apply Forall_fmap, Forall_forall. intros r Hr. simpl.
    apply elem_of_lookup_zip_with in Hr as (i & a & b & -> & _ & _).
    destruct (row_line_plain a b) as [_ ->]. done.
  - by repeat constructor.
  - apply Forall_fmap, Forall_forall. by intros kv _.
Qed.

Lemma save_metadata_lines `{Formatting} (items : list (string * meta_value))
    (x y : list Q) (file : string) :
  Forall header_entry items ->
  save items x y = Ok file ->
  metadata_lines (readlines file) = metadata_line <$> items.
Proof.
  intros Hall Hsave.
  destruct (save_lines _ _ _ _ Hall Hsave) as [Hlen Hlines].
  pose proof (save_header_length _ _ _ _ Hall Hsave) as Hh.
  rewrite metadata_lines_take by lia. rewrite Hh, Hlines.
  replace (length items + 1 - 1) with (length (metadata_line <$> items))
    by (rewrite length_fmap; lia).
  by rewrite take_app_length.
Qed.

Lemma save_read_metadata `{Formatting}
    (items : list (string * meta_value)) (x y : list Q) (file : string) :
  NoDup items.*1 ->
  Forall header_entry items ->
  save items x y = Ok file ->
  read_metadata ∅ (metadata_lines (readlines file)) = reloaded items.
Proof.
  intros Hnd Hall Hsave.
  rewrite (save_metadata_lines _ _ _ _ Hall Hsave).
  rewrite (read_metadata_lines _ _ Hall). unfold reloaded.
  rewrite <- (right_id_L ∅ (∪) (list_to_map _)).
  rewrite <- foldl_insert_list_to_map.
  - by rewrite foldl_fmap.
  - rewrite <- list_fmap_compose.
    change (NoDup (fst <$> filter (fun kv => string_forallb is_word kv.1 = true)
                                  items)).
    apply (sublist_NoDup _ (items.*1)); [exact Hnd |].
    apply fmap_sublist, sublist_filter.
Qed.

Lemma lookup_reloaded `{Formatting} (items : list (string * meta_value))
    (k : string) :
  reloaded items !! k
  = if string_forallb is_word k
    then (fun v => MStr (str_value v))
           <$> (list_to_map items : gmap string meta_value) !! k
    else None.
Proof.
  unfold reloaded. induction items as [| [k' v'] items IH].
  - simpl. rewrite lookup_empty. by destruct (string_forallb is_word k).
  - rewrite filter_cons. simpl. case_decide as Hw; simpl.
    + destruct (decide (k' = k)) as [-> | Hne].
      * by rewrite Hw, !lookup_insert_eq.
      * by rewrite !lookup_insert_ne.
    + rewrite IH. destruct (string_forallb is_word k) eqn:Hk; [| done].
      rewrite lookup_insert_ne; [done | congruence].
Qed.



(** The sample file of the witnesses is what [save] writes for its
    three entries and its table. *)
Example save_example :
  save (fmt := Concrete.plain_decimals) (take 3 Concrete.items)
       Concrete.table_x Concrete.table_y
  = Ok Concrete.saved_file.
Proof. vm_compute. reflexivity. Qed.



(** ** The frequency entry *)

Lemma string_filter_app (p : ascii -> bool) (a b : string) :
  string_filter p (a +:+ b) = string_filter p a +:+ string_filter p b.
Proof.
  induction a as [| c a IH]; [done |]. rewrite string_app_cons. simpl.
  destruct (p c); by rewrite IH.
Qed.

Lemma string_filter_all (p : ascii -> bool) (s : string) :
  string_forallb p s = true -> string_filter p s = s.
Proof.
  induction s as [| c s IH]; [done |]. simpl.
  intros [Hc Hs]%andb_true_iff. by rewrite Hc, IH.
Qed.

Lemma string_filter_none (p : ascii -> bool) (s : string) :
  string_forallb (fun c => negb (p c)) s = true ->
  string_filter p s = EmptyString.
Proof.
  induction s as [| c s IH]; [done |]. simpl.
  intros [Hc Hs]%andb_true_iff. apply negb_true_iff in Hc. by rewrite Hc, IH.
Qed.

Lemma is_digit_kept (c : ascii) :
  is_digit c = true -> in_string c "0123456789." = true.
Proof. destruct c as [[] [] [] [] [] [] [] []]; vm_compute; congruence. Qed.

(** [float] of a decimal numeral. *)
Lemma py_float_decimal (ip fp : string) (f : Q) :
  string_forallb is_digit ip = true -> string_forallb is_digit fp = true ->
  py_float (ip +:+ String "." fp) = Ok f ->
  f = (digits_value (ip +:+ fp)
       # Z.to_pos (10 ^ Z.of_nat (String.length fp)))%Q.
Proof.
  intros Hip Hfp. unfold py_float.
  rewrite (span_unique is_digit ip) by (done || right; eauto).
  rewrite Hfp. simpl. destruct (negb _); [congruence | done].
Qed.

(** What [load] makes of the entry: digits, a point, digits, and a unit
    without digits or points, such as the one that [__init__] appends. *)
Lemma frequency_entry (ip fp unit : string) (f : Q) :
  string_forallb is_digit ip = true -> string_forallb is_digit fp = true ->
  string_forallb (fun c => negb (in_string c "0123456789.")) unit = true ->
  py_float (string_filter (fun c => in_string c "0123456789.")
                          ((ip +:+ String "." fp) +:+ unit)) = Ok f ->
  f = (digits_value (ip +:+ fp)
       # Z.to_pos (10 ^ Z.of_nat (String.length fp)))%Q.
Proof.
  intros Hip Hfp Hunit.
  rewrite !string_filter_app, (string_filter_none _ unit Hunit), string_app_nil_r.
  change (String "." fp) with (String "." EmptyString +:+ fp).
  rewrite string_filter_app.
  rewrite (string_filter_all _ ip), (string_filter_all _ fp);
    [| by eapply string_forallb_impl; [apply is_digit_kept |]..].
  by apply py_float_decimal.
Qed.



(** ** Files without a header *)

Lemma read_metadata_none (m : gmap string meta_value) (lines : list string) :
  Forall (fun l => startswith_hash l = false) lines ->
  read_metadata m lines = m.
Proof.
  unfold read_metadata. induction 1 as [| l lines Hl _ IH]; [done |]. simpl.
  destruct (match_metadata l) as [[k v] |] eqn:Hm; [| done].
  apply match_metadata_spec, matches_pattern_hash in Hm. congruence.
Qed.

(** X19. A file with at most one line that starts with a hash sign
    cannot be loaded, although its table can be read: that line, if
    there is one, is taken for the column titles, the metadata stays
    empty, and the lookup of the Frequency entry raises [KeyError]. *)
Theorem load_short_header `{Lmfit} `{Numpy} (md0 : gmap string meta_value)
    (file : string) (m : ndarray) (x y : list Q) :
  np_loadtxt file = Ok m -> column m 0 = Ok x -> column m 1 = Ok y ->
  header_length (readlines file) <= 1 ->
  load md0 file = Raise KeyError.
Proof.
  intros Hm Hx Hy Hh. unfold load, dict_clear.
  rewrite Hm. simpl. rewrite Hx. simpl. rewrite Hy. simpl.
  assert (Hmd : read_metadata ∅ (metadata_lines (readlines file)) = ∅).
  { unfold metadata_lines.
    destruct (header_length (readlines file)) as [| [| h]] eqn:Hlen; [| | lia].
    - apply read_metadata_none. unfold py_slice.
      apply Forall_take, Forall_drop.
      unfold header_length in Hlen. apply length_zero_iff_nil in Hlen.
      apply Forall_forall. intros l Hl.
      destruct (startswith_hash l) eqn:Hs; [| done].
      assert (l ∈ filter (fun l => startswith_hash l = true) (readlines file))
        by (by apply list_elem_of_filter).
      rewrite Hlen in *. by apply elem_of_nil in H1.
    - change (Z.of_nat 1 - 1)%Z with (Z.of_nat 0).
      by rewrite py_slice_prefix. }
  rewrite Hmd, lookup_empty. reflexivity.
Qed.

Lemma load_short_header_witness :
  let lmfit := Concrete.first_guess (Some (1 # 2)%Q) in
  load ∅ (Concrete.unlines (Concrete.tabbed "# Frequency:" "9.385 GHz"
                              :: Concrete.table))
  = Raise KeyError.
Proof.
  intros lmfit. subst lmfit.
  eapply load_short_header.
  - vm_compute. reflexivity.
  - vm_compute. reflexivity.
  - vm_compute. reflexivity.
  - vm_compute. lia.
Defined.

Lemma digits_value_nonneg (s : string) : (0 <= digits_value s)%Z.
Proof.
  unfold digits_value.
  assert (Hgen : forall l acc, (0 <= acc)%Z ->
    (0 <= foldl (fun acc c => 10 * acc + Z.of_nat (nat_of_ascii c - 48)) acc l)%Z).
  { induction l as [| c l IH]; intros acc Hacc; [done |]. simpl.
    apply IH. lia. }
  by apply Hgen.
Qed.

(** X20. The frequency of a loaded mode picture is never negative:
    only digits and points of the Frequency entry are read, so that a
    minus sign in it is dropped. *)
Theorem load_freq0_nonneg `{Lmfit} `{Numpy} (md0 : gmap string meta_value)
    (file : string) (mp : ModePicture) :
  load md0 file = Ok mp -> (0 <= freq0 mp)%Q.
Proof.
  intros Hload. apply load_Ok in Hload as (m & s & Hload).
  destruct Hload as (_ & _ & _ & _ & _ & _ & Hfloat & _).
  unfold py_float in Hfloat.
  destruct (span is_digit _) as [ip rest].
  destruct (_ && _); [| done]. injection Hfloat as <-.
  unfold Qle. simpl. pose proof (digits_value_nonneg (ip +:+ match rest with
                   | String "." r => r
                   | _ => rest
                   end)). lia.
Qed.

Lemma load_freq0_nonneg_witness :
  let lmfit := Concrete.first_guess (Some (1 # 2)%Q) in
  let file := Concrete.unlines ([ Concrete.tabbed "# Frequency:" "-9.385 GHz";
                                  Concrete.column_titles ] ++ Concrete.table) in
  exists mp, load ∅ file = Ok mp /\ (0 <= freq0 mp)%Q.
Proof.
  intros lmfit file.
  assert (Hmp : exists mp, load ∅ file = Ok mp).
  { subst lmfit file. eexists. vm_compute. reflexivity. }
  destruct Hmp as [mp Hmp]. exists mp. split; [exact Hmp |].
  exact (load_freq0_nonneg ∅ file mp Hmp).
Defined.
